(** * Fashion-MNIST walkthrough: data preparation and the network trainer

    Part I embeds the data-preparation steps of [Class4/Fashion-MNIST.py]
    that feed the neural network: the pixel normalisation
    ([X_train_normalize]) and the loop that reshapes the data frame into the
    list of [(features, outcome)] pairs ([training_data]).

    Part II models the [network] module the script imports
    ([network.Network], [net.SGD]). *)

From Stdlib Require Import ZArith List Bool Lia Floats Uint63 Reals Lra.
From stdpp Require Import base list relations gmap strings.
Import ListNotations.

#[local] Open Scope Z_scope.

(** ** Python exceptions the embedded code can raise *)

Inductive exn : Type :=
| IndexError      (* numpy: index out of bounds for an axis *)
| KeyError        (* pandas: label not in the index *)
| ShapeMismatch   (* network: an example does not fit the topology *)
| ConfigError.    (* network: invalid training hyperparameters *)

Definition result (A : Type) : Type := exn + A.

Definition Ok {A} (a : A) : result A := inr a.
Definition Raise {A} (e : exn) : result A := inl e.

Definition rbind {A B} (m : result A) (k : A -> result B) : result B :=
  match m with
  | inl e => inl e
  | inr a => k a
  end.

Notation "'let!' x ':=' m 'in' k" := (rbind m (fun x => k))
  (at level 10, x name, m at level 100, k at level 200).

(** ** Numeric data *)

(** A 64-bit float holding the integer [z]; exact for the small integers the
    script converts (pixels and class labels). *)
Definition Z_to_float (z : Z) : float :=
  if z <? 0 then PrimFloat.opp (PrimFloat.of_uint63 (Uint63.of_Z (- z)))
  else PrimFloat.of_uint63 (Uint63.of_Z z).

(** A two-dimensional [numpy.ndarray], stored row by row. *)
Abbreviation ndarray := (list (list float)).

(** [arr.shape] as the pair [(rows, columns)] when every row has the same
    number of entries. *)
Definition has_shape (arr : ndarray) (r c : nat) : Prop :=
  length arr = r /\ Forall (fun row => length row = c) arr.

(** A column vector is an array of shape [(n, 1)]. *)
Definition column (v : list float) : ndarray := (fun a => [a]) <$> v.

(** [len(arr)] *)
Definition len {A} (l : list A) : Z := Z.of_nat (length l).

(** ** Normalisation (script lines 118-120)

    [X_train_normalize = [x/255.0 for x in X_train]]: [X_train] is the
    [uint8] image matrix, one row of pixels per image; dividing a row by the
    float [255.0] divides each pixel, converted to a 64-bit float. *)

Definition normalize_pixel (v : Z) : float := (Z_to_float v / 255)%float.

Definition X_train_normalize (X_train : list (list Z)) : list (list float) :=
  (fun x : list Z => normalize_pixel <$> x) <$> X_train.

(** ** Reshaping the data set (script lines 495-506) *)

(** The network topology of line 533: [network.Network([784, 30, 10])]. *)
Definition topology : list nat := [784; 30; 10]%nat.

(** A pandas data frame of features, one list of floats per row. *)
Abbreviation DataFrame := (list (list float)).

(** A pandas series of integer outcomes with the default index
    [0 .. n-1] (the script calls [reset_index(drop=True)] first). *)
Abbreviation Series := (list Z).

(** [X.iloc[i]] for [i] drawn from [range(X.shape[0])]. *)
Definition iloc (X : DataFrame) (i : nat) : result (list float) :=
  match X !! i with
  | Some row => Ok row
  | None => Raise IndexError
  end.

(** [y[i]]: label-based lookup in the default index. *)
Definition series_get (y : Series) (i : nat) : result Z :=
  match y !! i with
  | Some c => Ok c
  | None => Raise KeyError
  end.

(** [np.zeros(n)] *)
Definition np_zeros (n : nat) : list float := replicate n 0%float.

(** numpy's index normalisation on an axis of length [n]: negative indices
    count from the end, anything outside [-n .. n-1] raises. *)
Definition normalize_index (k : Z) (n : nat) : result nat :=
  if (0 <=? k) && (k <? Z.of_nat n) then Ok (Z.to_nat k)
  else if (- Z.of_nat n <=? k) && (k <? 0) then Ok (Z.to_nat (k + Z.of_nat n))
  else Raise IndexError.

(** [arr[k] = v] on a two-dimensional array: the scalar is broadcast over
    row [k]. *)
Definition setitem (arr : ndarray) (k : Z) (v : float) : result ndarray :=
  let! i := normalize_index k (length arr) in
  Ok (alter (fun row : list float => (fun _ => v) <$> row) i arr).

(** [tmp_x = pd.DataFrame(X.iloc[i]).values] *)
Definition tmp_x (X : DataFrame) (i : nat) : result ndarray :=
  let! row := iloc X i in Ok (column row).

(** [tmp_y = pd.DataFrame(np.zeros(10)).values; tmp_y[y[i]] = y[i]] *)
Definition tmp_y (c : Z) : result ndarray :=
  setitem (column (np_zeros 10)) c (Z_to_float c).

(** A [(features, outcome)] tuple. *)
Abbreviation example := (ndarray * ndarray)%type.

(** The state of the loop: what was printed so far and the list being
    filled. *)
Record loop_state : Type := mkLoop {
  stdout : list nat;
  slots : list (option example)
}.

(** One iteration of the [for] loop body at index [i]. An exception leaves
    the state as it was when it was raised. *)
Definition reshape_body (X : DataFrame) (y : Series) (i : nat)
    (st : loop_state) : loop_state * result unit :=
  let st1 := if Z.of_nat i mod 15000 =? 0
             then mkLoop (stdout st ++ [i]) (slots st) else st in
  match tmp_x X i with
  | inl e => (st1, Raise e)
  | inr tx =>
    match series_get y i with
    | inl e => (st1, Raise e)
    | inr c =>
      match tmp_y c with
      | inl e => (st1, Raise e)
      | inr ty =>
        (mkLoop (stdout st1) (<[i := Some (tx, ty)]> (slots st1)), Ok tt)
      end
    end
  end.

(** [for i in range(num_rows): ...] *)
Fixpoint reshape_loop (X : DataFrame) (y : Series) (range : list nat)
    (st : loop_state) : loop_state * result unit :=
  match range with
  | [] => (st, Ok tt)
  | i :: rest =>
    match reshape_body X y i st with
    | (st', inr _) => reshape_loop X y rest st'
    | (st', inl e) => (st', Raise e)
    end
  end.

(** [num_rows = X.shape[0]] *)
Definition num_rows (X : DataFrame) : nat := length X.

(** The whole cell: [training_data = [None]*num_rows] and the loop. *)
Definition reshape (X : DataFrame) (y : Series) : loop_state * result unit :=
  reshape_loop X y (seq 0 (num_rows X))
    (mkLoop [] (replicate (num_rows X) None)).

(** The list [training_data] once the cell has run without an exception. *)
Definition training_data (X : DataFrame) (y : Series)
    : result (list (option example)) :=
  match reshape X y with
  | (st, inr _) => Ok (slots st)
  | (_, inl e) => Raise e
  end.

(** The standard one-hot encoding of class [c] among [n] classes, as an
    [(n, 1)] array. *)
Definition one_hot (n : nat) (c : nat) : ndarray :=
  column (<[c := 1%float]> (np_zeros n)).

(** A feature frame and an outcome series the reshaping cell accepts: an
    outcome for every row, every outcome one of the ten class labels. *)
Definition labelled (X : DataFrame) (y : Series) : Prop :=
  (length X <= length y)%nat /\ Forall (fun c => 0 <= c <= 9) y.

(** The [(n, 1)] array holding [v] at row [c] and zero elsewhere. *)
Definition single_entry (n : nat) (c : nat) (v : float) : ndarray :=
  column (<[c := v]> (np_zeros n)).

(** The 256 values a [uint8] pixel can take. *)
Definition pixels : list Z := Z.of_nat <$> seq 0 256.

(** [0 <= f <= 1] on floats. *)
Definition in_unit_interval (f : float) : bool :=
  PrimFloat.leb 0 f && PrimFloat.leb f 1.

(** [y_pred_train_nn = [np.argmax(x) for x in res]] (line 572) is embedded
    in Part II as [Network.y_pred_train_nn], next to the model of [res]. *)

(** * Part II: the [network] module

    The script imports [network] and uses [network.Network([784, 30, 10])]
    and [net.SGD(training_data, learning_rate=3.0)]; the module itself is
    not among the sources, so it is modelled from its specification. *)

Module Network.

(** Modelled from the spec: the arithmetic of the missing [network.py]. The
    scalars the network computes with, kept abstract so that the model reads
    both as the spec's mathematics (real numbers) and as the machine
    arithmetic (floats). *)
Class Scalar (num : Type) : Type := {
  zero : num;
  one : num;
  add : num -> num -> num;
  sub : num -> num -> num;
  mul : num -> num -> num;
  div : num -> num -> num;
  opp : num -> num;
  exp : num -> num;
  of_nat : nat -> num;
  ltb : num -> num -> bool
}.

(** Modelled from the spec: the random source of the missing [network.py]
    (section 9 asks for an explicit generator passed to construction and to
    the shuffle step). [randn] is one standard-normal draw; [shuffle] returns
    a full permutation of its argument. *)
Class RandomGen (num rng : Type) : Type := {
  randn : rng -> num * rng;
  shuffle : forall {A : Type}, rng -> list A -> list A * rng;
  shuffle_perm : forall (A : Type) (g : rng) (l : list A), (shuffle g l).1 ≡ₚ l
}.

Section Model.

Context {num : Type} {SC : Scalar num} {rng : Type} {RG : RandomGen num rng}.

(** Modelled from the spec: the arrays of the missing [network.py]. A column
    vector of [n] entries, shape [(n, 1)], is the list of its entries; a
    matrix is the list of its rows. *)
Abbreviation vec := (list num).
Abbreviation mat := (list (list num)).

(** Modelled from the spec: the shape [(n, 1)] of a column vector of the
    missing [network.py]. *)
Definition vec_shape (v : vec) : nat * nat := (length v, 1%nat).

(** Modelled from the spec: a matrix of the missing [network.py] has shape
    [(r, c)]: [r] rows of [c] entries. *)
Definition mat_shape (W : mat) (r c : nat) : Prop :=
  length W = r /\ Forall (fun row => length row = c) W.

(** Modelled from the spec: the sigmoid of the missing [network.py],
    [σ(z) = 1/(1+e^-z)]. *)
Definition sigmoid (z : num) : num := div one (add one (exp (opp z))).

(** Modelled from the spec: [σ'(z) = σ(z)(1-σ(z))]. *)
Definition sigmoid_prime (z : num) : num :=
  mul (sigmoid z) (sub one (sigmoid z)).

(** Modelled from the spec: the array operations of the missing
    [network.py]. Elementwise sum, difference and product ([⊙]) of column
    vectors. The spec names no error for operands of different lengths; the
    operations here stop at the shorter one. *)
Definition vadd (u v : vec) : vec := zip_with add u v.

Definition vsub (u v : vec) : vec := zip_with sub u v.

Definition hadamard (u v : vec) : vec := zip_with mul u v.

(** Modelled from the spec: the products of the missing [network.py]:
    [W·a] by rows, and [δ·aᵀ]. *)
Definition dot (u v : vec) : num := foldr add zero (zip_with mul u v).

Definition matvec (W : mat) (a : vec) : vec := (fun row => dot row a) <$> W.

Definition outer (d a : vec) : mat := (fun di => mul di <$> a) <$> d.

(** Modelled from the spec: [Wᵀ] of the missing [network.py]; the number of
    columns is read off the first row. *)
Definition transpose (W : mat) : mat :=
  match W with
  | [] => []
  | row :: _ =>
    (fun j => (fun r : list num => default zero (r !! j)) <$> W)
      <$> seq 0 (length row)
  end.

(** Modelled from the spec: sums, differences and scalar multiples of the
    gradient and parameter arrays of the missing [network.py]. *)
Definition madd (A B : mat) : mat := zip_with vadd A B.

Definition vscale (c : num) (v : vec) : vec := mul c <$> v.

Definition mscale (c : num) (A : mat) : mat := vscale c <$> A.

Definition msub (A B : mat) : mat := zip_with vsub A B.

(** Modelled from the spec: the Parameters of the missing [network.py]
    (section 3): the layer sizes, and per layer a bias vector and a weight
    matrix. *)
Record Network : Type := mkNetwork {
  sizes : list nat;
  biases : list vec;
  weights : list mat
}.

(** Modelled from the spec: LayerSizes (section 3), positive integers, at
    least two of them. *)
Definition valid_sizes (szs : list nat) : Prop :=
  (2 <= length szs)%nat /\ Forall (fun k => (0 < k)%nat) szs.

(** Modelled from the spec: the shape invariant (sections 3 and 8): weight
    matrix [l] has shape [(sizes[l], sizes[l-1])] and bias vector [l] has
    shape [(sizes[l], 1)], for every layer [l] in [1 .. L-1]; layer [l]'s
    parameters are stored at position [l - 1]. *)
Definition shape_invariant (szs : list nat) (n : Network) : Prop :=
  sizes n = szs /\
  length (weights n) = (length szs - 1)%nat /\
  length (biases n) = (length szs - 1)%nat /\
  forall (l nl nprev : nat),
    (1 <= l)%nat -> szs !! l = Some nl -> szs !! (l - 1)%nat = Some nprev ->
    exists W b,
      weights n !! (l - 1)%nat = Some W /\ biases n !! (l - 1)%nat = Some b /\
      mat_shape W nl nprev /\ vec_shape b = (nl, 1%nat).

(** Modelled from the spec: the same shape invariant of the missing
    [network.py], by recursion on the layers. *)
Fixpoint layers_ok (szs : list nat) (bs : list vec) (ws : list mat) : Prop :=
  match szs with
  | n0 :: ((n1 :: _) as rest) =>
    match bs, ws with
    | b :: bs', w :: ws' =>
      length b = n1 /\ mat_shape w n1 n0 /\ layers_ok rest bs' ws'
    | _, _ => False
    end
  | _ => bs = [] /\ ws = []
  end.

(** Modelled from the spec: Construction (section 4.1) of the missing
    [network.py]: every bias and weight entry is an independent
    standard-normal draw. *)
Fixpoint randn_vec (n : nat) (g : rng) : vec * rng :=
  match n with
  | O => ([], g)
  | S n' =>
    let (a, g1) := randn g in
    let (v, g2) := randn_vec n' g1 in
    (a :: v, g2)
  end.

(** Modelled from the spec: an [(r, c)] matrix of standard-normal draws for
    the missing [network.py]. *)
Fixpoint randn_mat (r c : nat) (g : rng) : mat * rng :=
  match r with
  | O => ([], g)
  | S r' =>
    let (row, g1) := randn_vec c g in
    let (W, g2) := randn_mat r' c g1 in
    (row :: W, g2)
  end.

(** Modelled from the spec: the Parameters of every layer [l] in
    [1 .. L-1] of the missing [network.py], a bias vector of shape
    [(sizes[l], 1)] and a weight matrix of shape [(sizes[l], sizes[l-1])]. *)
Fixpoint init_layers (szs : list nat) (g : rng) : list vec * list mat * rng :=
  match szs with
  | n0 :: ((n1 :: _) as rest) =>
    let (b, g1) := randn_vec n1 g in
    let (w, g2) := randn_mat n1 n0 g1 in
    let '(bs, ws, g3) := init_layers rest g2 in
    (b :: bs, w :: ws, g3)
  | _ => ([], [], g)
  end.

(** Modelled from the spec: [Network(sizes)] of the missing [network.py]. *)
Definition new (szs : list nat) (g : rng) : Network * rng :=
  let '(bs, ws, g') := init_layers szs g in (mkNetwork szs bs ws, g').

(** Modelled from the spec: [feedforward] (section 4.1) of the missing
    [network.py]: for each layer in order [a' = σ(W·a + b)], starting from
    [a = x]. *)
Fixpoint feedforward_layers (bs : list vec) (ws : list mat) (a : vec) : vec :=
  match bs, ws with
  | b :: bs', w :: ws' =>
    feedforward_layers bs' ws' (sigmoid <$> vadd (matvec w a) b)
  | _, _ => a
  end.

(** Modelled from the spec: [feedforward(x)] of the missing [network.py] on
    the network's own Parameters. *)
Definition feedforward (n : Network) (x : vec) : vec :=
  feedforward_layers (biases n) (weights n) x.

(** Modelled from the spec: the gradients [backprop] returns, same shapes
    as the Parameters. *)
Record Gradients : Type := mkGradients {
  nabla_b : list vec;
  nabla_w : list mat
}.

(** Modelled from the spec: [backprop] (section 4.1) of the missing
    [network.py]. The forward pass (step 1) runs on the way into the
    recursion; on the way out each layer receives the derivative of the cost
    with respect to its activation: [a_L - y] at the output (step 2) and
    [Wᵀ_{l+1}·δ_{l+1}] below it (step 3), multiplies it by [σ'(z_l)] to get
    [δ_l], and emits [∇b_l = δ_l] and [∇W_l = δ_l·a_{l-1}ᵀ] (step 4). *)
Fixpoint backprop_layers (bs : list vec) (ws : list mat) (a y : vec)
    : list vec * list mat * vec :=
  match bs, ws with
  | b :: bs', w :: ws' =>
    let z := vadd (matvec w a) b in
    let '(nb, nw, back) := backprop_layers bs' ws' (sigmoid <$> z) y in
    let delta := hadamard back (sigmoid_prime <$> z) in
    (delta :: nb, outer delta a :: nw, matvec (transpose w) delta)
  | _, _ => ([], [], vsub a y)
  end.


(** Modelled from the spec: the shape guard of [backprop] in the missing
    [network.py]: [x] must have [sizes[0]] entries and [y] must have
    [sizes[-1]] entries, otherwise ShapeMismatch. *)
Definition shapes_match (n : Network) (x y : vec) : bool :=
  bool_decide (head (sizes n) = Some (length x)) &&
  bool_decide (last (sizes n) = Some (length y)).

(** Modelled from the spec: [backprop(x, y)] of the missing [network.py]:
    the guard, then the gradients of every layer. *)
Definition backprop (n : Network) (x y : vec) : result Gradients :=
  if shapes_match n x y then
    let '(nb, nw, _) := backprop_layers (biases n) (weights n) x y in
    Ok (mkGradients nb nw)
  else Raise ShapeMismatch.

(** Modelled from the spec: the GradientAccumulator (section 3), zero at
    batch start, summed across examples. *)
(** Modelled from the spec: zero arrays with the shapes of the Parameters
    of the missing [network.py]. *)
Definition vzeros_like (v : vec) : vec := (fun _ => zero) <$> v.
Definition mzeros_like (W : mat) : mat := vzeros_like <$> W.

(** Modelled from the spec: the accumulator at batch start in the missing
    [network.py]. *)
Definition zero_gradients (n : Network) : Gradients :=
  mkGradients (vzeros_like <$> biases n) (mzeros_like <$> weights n).

(** Modelled from the spec: adding one example's gradients to the
    accumulator in the missing [network.py]. *)
Definition add_gradients (g1 g2 : Gradients) : Gradients :=
  mkGradients (zip_with vadd (nabla_b g1) (nabla_b g2))
              (zip_with madd (nabla_w g1) (nabla_w g2)).

(** Modelled from the spec: the sum of the [backprop] gradients over a
    batch in the missing [network.py]; the first ShapeMismatch ends it. *)
Fixpoint sum_gradients (n : Network) (batch : list (vec * vec))
    (acc : Gradients) : result Gradients :=
  match batch with
  | [] => Ok acc
  | (x, y) :: rest =>
    let! g := backprop n x y in sum_gradients n rest (add_gradients acc g)
  end.

(** Modelled from the spec: [update_mini_batch] (section 4.1) of the
    missing [network.py]:
    [W ← W − (learning_rate/|batch|)·ΣW_grad], and the same for [b]. *)
Definition update_mini_batch (batch : list (vec * vec)) (learning_rate : num)
    (n : Network) : result Network :=
  let! g := sum_gradients n batch (zero_gradients n) in
  let c := div learning_rate (of_nat (length batch)) in
  Ok (mkNetwork (sizes n)
        (zip_with (fun b nb => vsub b (vscale c nb)) (biases n) (nabla_b g))
        (zip_with (fun w nw => msub w (mscale c nw)) (weights n) (nabla_w g))).

(** Modelled from the spec: what the Trainer of the missing [network.py]
    can change: the network's Parameters, the random generator, and the
    validation reports [(epoch, correct_count, total_count)]. *)
Record state : Type := mkState {
  net : Network;
  gen : rng;
  reports : list (nat * nat * nat)
}.

(** Modelled from the spec: the methods of the missing [network.py] as
    computations that read and write the state and may raise; an exception
    leaves the state as it was when it was raised. *)
Definition M (A : Type) : Type := state -> result A * state.

(** Modelled from the spec: returning, raising and sequencing in the
    methods of the missing [network.py]. *)
Definition ret {A} (a : A) : M A := fun s => (Ok a, s).

Definition raise {A} (e : exn) : M A := fun s => (Raise e, s).

Definition bind {A B} (m : M A) (k : A -> M B) : M B :=
  fun s =>
    match m s with
    | (inr a, s') => k a s'
    | (inl e, s') => (inl e, s')
    end.

Notation "'do!' x ':=' m 'in' k" := (bind m (fun x => k))
  (at level 10, x name, m at level 100, k at level 200).

(** Modelled from the spec: [feedforward], [backprop] and
    [update_mini_batch] of the missing [network.py] as methods on the state;
    only [update_mini_batch] writes the Parameters, and only when no
    exception is raised. *)
Definition feedforward_m (x : vec) : M vec :=
  fun s => (Ok (feedforward (net s) x), s).

Definition backprop_m (x y : vec) : M Gradients :=
  fun s => (backprop (net s) x y, s).

Definition update_mini_batch_m (batch : list (vec * vec))
    (learning_rate : num) : M unit :=
  fun s =>
    match update_mini_batch batch learning_rate (net s) with
    | inr n' => (Ok tt, mkState n' (gen s) (reports s))
    | inl e => (Raise e, s)
    end.

(** Modelled from the spec: the shuffle at the start of an epoch (section
    4.2, step 1) of the missing [network.py]. *)
Definition shuffle_m (l : list (vec * vec)) : M (list (vec * vec)) :=
  fun s =>
    let (l', g') := shuffle (gen s) l in
    (Ok l', mkState (net s) g' (reports s)).

(** Modelled from the spec: the partition into consecutive mini-batches of
    size [k] (section 4.2, step 2); the final batch may be smaller. *)
Definition mini_batches {A} (k : nat) (l : list A) : list (list A) :=
  (fun j => take k (drop (j * k) l)) <$> seq 0 ((length l + k - 1) / k).

(** Modelled from the spec: [argmax] as used by the accuracy evaluation of
    the missing [network.py] and by the script, the position of the first
    maximal entry. *)
Fixpoint argmax_from (v : vec) (i best : nat) (bestv : num) : nat :=
  match v with
  | [] => best
  | a :: v' =>
    if ltb bestv a then argmax_from v' (S i) i a
    else argmax_from v' (S i) best bestv
  end.

(** Modelled from the spec: [argmax] of the missing [network.py]; zero on
    an empty vector. *)
Definition argmax (v : vec) : nat :=
  match v with
  | [] => O
  | a :: v' => argmax_from v' 1 0 a
  end.

(** Modelled from the spec: a validation target (section 4.2), a one-hot
    vector or a raw integer label. *)
Inductive target : Type :=
| OneHot (y : vec)
| ClassIndex (c : nat).

(** Modelled from the spec: the class a validation target of the missing
    [network.py] stands for. *)
Definition target_class (t : target) : nat :=
  match t with
  | OneHot y => argmax y
  | ClassIndex c => c
  end.

(** Modelled from the spec: accuracy evaluation (section 4.2), the number
    of validation examples whose predicted [argmax] is the target class. *)
Definition evaluate (n : Network) (validation_set : list (vec * target)) : nat :=
  length (filter (fun ex => argmax (feedforward n ex.1) = target_class ex.2)
                 validation_set).

(** Modelled from the spec: the per-epoch report (section 4.2, step 4) of
    the missing [network.py], made only when a validation set is supplied. *)
Definition report_m (epoch : nat)
    (validation_set : option (list (vec * target))) : M unit :=
  fun s =>
    match validation_set with
    | Some vs =>
      (Ok tt, mkState (net s) (gen s)
                (reports s ++ [(epoch, evaluate (net s) vs, length vs)]))
    | None => (Ok tt, s)
    end.

(** Modelled from the spec: [update_mini_batch] on each mini-batch in turn
    (section 4.2, step 3) in the missing [network.py]. *)
Fixpoint run_batches (batches : list (list (vec * vec)))
    (learning_rate : num) : M unit :=
  match batches with
  | [] => ret tt
  | batch :: rest =>
    do! _ := update_mini_batch_m batch learning_rate in
    run_batches rest learning_rate
  end.

(** Modelled from the spec: one epoch (section 4.2, steps 1 to 4). It
    returns the new ordering of the training set. *)
Definition run_epoch (epoch : nat) (training_set : list (vec * vec))
    (mini_batch_size : nat) (learning_rate : num)
    (validation_set : option (list (vec * target))) : M (list (vec * vec)) :=
  do! shuffled := shuffle_m training_set in
  do! _ := run_batches (mini_batches mini_batch_size shuffled) learning_rate in
  do! _ := report_m epoch validation_set in
  ret shuffled.

(** Modelled from the spec: the epoch loop of [train] in the missing
    [network.py]; it always runs exactly [count] epochs, numbered from
    [epoch]. *)
Fixpoint run_epochs (count epoch : nat) (training_set : list (vec * vec))
    (mini_batch_size : nat) (learning_rate : num)
    (validation_set : option (list (vec * target))) : M unit :=
  match count with
  | O => ret tt
  | S count' =>
    do! shuffled := run_epoch epoch training_set mini_batch_size
                      learning_rate validation_set in
    run_epochs count' (S epoch) shuffled mini_batch_size learning_rate
      validation_set
  end.

(** Modelled from the spec: the hyperparameter check of [train] (sections
    4.2 and 7): [learning_rate > 0], [1 <= mini_batch_size <= len
    (training_set)], and a training set that is not empty. *)
Definition valid_config (training_set : list (vec * vec))
    (mini_batch_size : Z) (learning_rate : num) : bool :=
  ltb zero learning_rate &&
  (1 <=? mini_batch_size) && (mini_batch_size <=? len training_set) &&
  negb (len training_set =? 0).

(** Modelled from the spec: [train] (section 4.2) of the missing
    [network.py], called [SGD] by the script. The result is the output
    activation vector of every example of the set as supplied, in the
    supplied order. The spec's signature has no switch for the "evaluation
    mode" it mentions; the script derives the predicted class indices from
    the returned activations, see [y_pred_train_nn]. *)
Definition train (training_set : list (vec * vec)) (epochs : nat)
    (mini_batch_size : Z) (learning_rate : num)
    (validation_set : option (list (vec * target))) : M (list vec) :=
  if valid_config training_set mini_batch_size learning_rate then
    do! _ := run_epochs epochs 1 training_set (Z.to_nat mini_batch_size)
               learning_rate validation_set in
    fun s => (Ok ((fun ex : vec * vec => feedforward (net s) ex.1)
                    <$> training_set), s)
  else raise ConfigError.


(** Modelled from the spec: the state right after constructing the
    Network of the missing [network.py] with layer sizes [szs]. *)
Definition init_state (szs : list nat) (g : rng) : state :=
  let (n, g') := new szs g in mkState n g' [].

(** Modelled from the spec: one operation of the missing [network.py] on
    the state; training is a sequence of these. *)
Inductive step : state -> state -> Prop :=
| step_feedforward s x : step s (feedforward_m x s).2
| step_backprop s x y : step s (backprop_m x y s).2
| step_update s batch learning_rate :
    step s (update_mini_batch_m batch learning_rate s).2
| step_shuffle s l : step s (shuffle_m l s).2
| step_report s epoch validation_set :
    step s (report_m epoch validation_set s).2.

End Model.

(** The spec's mathematics as an instance: real numbers, with the real
    exponential. *)
#[export] Instance R_scalar : Scalar R := {|
  zero := 0%R;
  one := 1%R;
  add := Rplus;
  sub := Rminus;
  mul := Rmult;
  div := Rdiv;
  opp := Ropp;
  exp := Rtrigo_def.exp;
  of_nat := INR;
  ltb := fun a b => if Rlt_dec a b then true else false
|}.

(** A deterministic stand-in for the random source: a counter, whose
    shuffle rotates the list. *)
Definition counter_shuffle {A : Type} (g : nat) (l : list A) : list A * nat :=
  (rotate g l, S g).

Lemma counter_shuffle_perm (A : Type) (g : nat) (l : list A) :
  (counter_shuffle g l).1 ≡ₚ l.
Proof.
  unfold counter_shuffle, rotate. simpl.
  rewrite Permutation_app_comm. by rewrite take_drop.
Qed.

#[export] Instance counter_gen : RandomGen R nat := {|
  randn := fun g => (INR g, S g);
  shuffle := @counter_shuffle;
  shuffle_perm := counter_shuffle_perm
|}.

(** A concrete network and training set: layer sizes [[2, 3, 1]], real
    arithmetic, the counter as random source, two examples. *)
Definition sample_state : @state R nat := init_state [2; 3; 1]%nat 0%nat.

Definition sample_set : list (list R * list R) :=
  [([1%R; 0%R], [1%R]); ([0%R; 1%R], [0%R])].

End Network.

(** * Part III: the other cells of the script

    The cells around the data preparation that hold logic of their own: the
    dictionary of outcome labels and the list of class names, the image
    viewer [visualize_image], and the two loops over the forest sizes. *)

(** ** Exceptions of these cells *)

Inductive failure : Type :=
| Raised (e : exn)   (* an IndexError or a KeyError *)
| ValueError         (* numpy: cannot reshape the array *)
| AttributeError.    (* an attribute of [None] *)

Definition outcome (A : Type) : Type := failure + A.

(** [seq[k]] on a Python list or a one-dimensional array: negative indices
    count from the end. *)
Definition getitem {A : Type} (l : list A) (k : Z) : result A :=
  let! i := normalize_index k (length l) in
  match l !! i with
  | Some a => Ok a
  | None => Raise IndexError
  end.

(** [d[k]] on a dictionary with integer keys. *)
Definition dict_get {V : Type} (d : gmap Z V) (k : Z) : result V :=
  match d !! k with
  | Some v => Ok v
  | None => Raise KeyError
  end.

(** [[f(x) for x in xs]]; the first exception ends the comprehension. *)
Fixpoint comprehension {A B : Type} (f : A -> result B) (xs : list A)
    : result (list B) :=
  match xs with
  | [] => Ok []
  | x :: rest =>
    let! b := f x in
    let! bs := comprehension f rest in
    Ok (b :: bs)
  end.

(** ** Outcome labels (script lines 132-144 and 372) *)

Definition label_items : list (Z * string) :=
  [(0, "T-shirt/top"); (1, "Trouser"); (2, "Pullover"); (3, "Dress");
   (4, "Coat"); (5, "Sandal"); (6, "Shirt"); (7, "Sneaker"); (8, "Bag");
   (9, "Ankle boot")]%string.

Definition label_dict : gmap Z string := list_to_map label_items.

(** [class_names = [label_dict[x] for x in range(10)]] *)
Definition class_names : result (list string) :=
  comprehension (dict_get label_dict) (seqZ 0 10).

(** ** The image viewer (script lines 152-160) *)

(** [v.reshape(r, c)] on a one-dimensional array, in row-major order. *)
Definition np_reshape (r c : nat) (v : list float) : outcome ndarray :=
  if (length v =? r * c)%nat
  then inr ((fun i => take c (drop (i * c) v)) <$> seq 0 r)
  else inl ValueError.

(** What the notebook shows: the images drawn by [plt.imshow] and the lines
    printed. *)
Record display : Type := mkDisplay {
  images : list ndarray;
  printed : list string
}.

(** [visualize_image(dataset_x, dataset_y, img_index, y_labels)]: the image
    is drawn first, then the label is looked up and printed. *)
Definition visualize_image (dataset_x : list (list float))
    (dataset_y : list Z) (img_index : Z) (y_labels : gmap Z string)
    (d : display) : display * outcome unit :=
  match getitem dataset_x img_index with
  | inl e => (d, inl (Raised e))
  | inr row =>
    match np_reshape 28 28 row with
    | inl e => (d, inl e)
    | inr img =>
      let d1 := mkDisplay (images d ++ [img]) (printed d) in
      match getitem dataset_y img_index with
      | inl e => (d1, inl (Raised e))
      | inr c =>
        match dict_get y_labels c with
        | inl e => (d1, inl (Raised e))
        | inr name => (mkDisplay (images d1) (printed d1 ++ [name]), inr tt)
        end
      end
    end
  end.

(** ** [np.argmax] on float arrays (script lines 562 and 572) *)

(** numpy's scan for the maximum of a flat float64 array from position [i]
    on, with [mp] the maximum so far, found at position [best]: an entry
    replaces the maximum when [entry <= mp] is false, and a NaN that does so
    ends the scan. *)
Fixpoint np_argmax_from (v : list float) (i best : nat) (mp : float) : nat :=
  match v with
  | [] => best
  | a :: v' =>
    if negb (PrimFloat.leb a mp)
    then if PrimFloat.is_nan a then i else np_argmax_from v' (S i) i a
    else np_argmax_from v' (S i) best mp
  end.

(** [np.argmax(v)] on the flattened array: an empty array raises
    ValueError, a leading NaN is the maximum at once. *)
Definition np_argmax (v : list float) : outcome nat :=
  match v with
  | [] => inl ValueError
  | a :: v' =>
    if PrimFloat.is_nan a then inr 0%nat else inr (np_argmax_from v' 1 0 a)
  end.

(** ** The loops over the forest sizes (script lines 245-302) *)

(** [n_trees = [50, 100, 250, 500, 1000, 1500, 2500]] *)
Definition n_trees : list Z := [50; 100; 250; 500; 1000; 1500; 2500].

(** [dict.fromkeys(keys)]: every key mapped to [None]. *)
Definition fromkeys {V : Type} (keys : list Z) : gmap Z (option V) :=
  foldl (fun d k => <[k := None]> d) ∅ keys.

Section Forests.

(** The fitted classifiers are sklearn's. [rf.fit(X, y)] rejects a
    classifier made with [n_estimators < 1] with a ValueError; for
    [num >= 1], [fit_forest num] stands for
    [RandomForestClassifier(n_estimators=num, ..., random_state=2019)] after
    [rf.fit(X, y)], and [oob_score_] for its attribute of that name. *)
Context {forest : Type}.
Variable fit_forest : Z -> forest.
Variable oob_score_ : forest -> float.

(** The state of the fitting loop: the numbers printed and the dictionary
    of models. *)
Record fit_state : Type := mkFit {
  fit_stdout : list Z;
  rf_dict : gmap Z (option forest)
}.

(** [for num in sizes: print(num); rf = ...; rf.fit(X, y);
    rf_dict[num] = rf]. The size is printed first; a ValueError of [fit]
    ends the loop before the assignment, with the dictionary as it was. *)
Fixpoint fit_loop (sizes : list Z) (st : fit_state)
    : fit_state * outcome unit :=
  match sizes with
  | [] => (st, inr tt)
  | num :: rest =>
    let st1 := mkFit (fit_stdout st ++ [num]) (rf_dict st) in
    if 1 <=? num
    then fit_loop rest
           (mkFit (fit_stdout st1)
                  (<[num := Some (fit_forest num)]> (rf_dict st1)))
    else (st1, inl ValueError)
  end.

(** The cells of lines 254-271: [rf_dict = dict.fromkeys(sizes)] and the
    loop. *)
Definition fit_cells (sizes : list Z) : fit_state * outcome unit :=
  fit_loop sizes (mkFit [] (fromkeys sizes)).

(** [rf_dict[k]] followed by an attribute access: a missing key raises
    KeyError, a value still [None] raises AttributeError. *)
Definition fitted (d : gmap Z (option forest)) (k : Z) : outcome forest :=
  match dict_get d k with
  | inl e => inl (Raised e)
  | inr None => inl AttributeError
  | inr (Some rf) => inr rf
  end.

(** [oob_error_list[i] = 1 - rf_dict[sizes[i]].oob_score_] *)
Definition oob_body (sizes : list Z) (d : gmap Z (option forest)) (i : nat)
    (oob_error_list : list (option float)) : outcome (list (option float)) :=
  match sizes !! i with
  | None => inl (Raised IndexError)
  | Some k =>
    match fitted d k with
    | inl e => inl e
    | inr rf => inr (<[i := Some (1 - oob_score_ rf)%float]> oob_error_list)
    end
  end.

(** [for i in range(len(sizes)): ...]; an exception leaves the list as it
    was when it was raised. *)
Fixpoint oob_loop (sizes : list Z) (d : gmap Z (option forest))
    (range : list nat) (oob_error_list : list (option float))
    : list (option float) * outcome unit :=
  match range with
  | [] => (oob_error_list, inr tt)
  | i :: rest =>
    match oob_body sizes d i oob_error_list with
    | inl e => (oob_error_list, inl e)
    | inr l' => oob_loop sizes d rest l'
    end
  end.

(** The cell of lines 294-302: [oob_error_list = [None] * len(sizes)], the
    loop, and in its [else] branch the plot of the points
    [(sizes[i], oob_error_list[i])]. *)
Definition oob_cell (sizes : list Z) (d : gmap Z (option forest))
    : list (option float) * outcome (list (Z * option float)) :=
  match oob_loop sizes d (seq 0 (length sizes))
          (replicate (length sizes) None) with
  | (l, inr _) => (l, inr (zip sizes l))
  | (l, inl e) => (l, inl e)
  end.

End Forests.

(** ** Vocabulary for the behaviour of the reshaping cell *)

(** What iteration [i] of the reshaping loop prints. *)
Definition printed_at (i : nat) : list nat :=
  if Z.of_nat i mod 15000 =? 0 then [i] else [].

(** The row of the target that label [c] addresses; negative labels count
    from the end of the ten rows. *)
Definition target_row (c : Z) : nat :=
  Z.to_nat (if c <? 0 then c + 10 else c).

(** The labels the assignment [tmp_y[c] = c] accepts. *)
Definition index_ok (c : Z) : Prop := -10 <= c <= 9.

(** A row is good when it has an outcome the assignment accepts. *)
Definition good_row (y : Series) (i : nat) : Prop :=
  exists c, y !! i = Some c /\ index_ok c.

(** The example the loop stores for a row and its label. *)
Definition stored (row : list float) (c : Z) : option example :=
  Some (column row, single_entry 10 (target_row c) (Z_to_float c)).

(** * Part I: properties of the data preparation *)

(** ** Normalisation *)

Lemma pixels_complete v : 0 <= v <= 255 -> v ∈ pixels.
Proof.
  intros Hv. unfold pixels. apply list_elem_of_fmap.
  exists (Z.to_nat v). split; [lia|].
  apply elem_of_seq. lia.
Qed.

Lemma pixels_normalized :
  forallb (fun v => in_unit_interval (normalize_pixel v)) pixels = true.
Proof. vm_compute. reflexivity. Qed.

Lemma normalize_pixel_bounds v :
  0 <= v <= 255 -> in_unit_interval (normalize_pixel v) = true.
Proof.
  intros Hv. pose proof pixels_normalized as Hall.
  rewrite forallb_forall in Hall. apply Hall.
  apply list_elem_of_In, pixels_complete, Hv.
Qed.

Lemma normalize_pixel_ends :
  normalize_pixel 0 = 0%float /\ normalize_pixel 255 = 1%float.
Proof. split; reflexivity. Qed.

(** C3. Every raw pixel value [v] with [0 <= v <= 255] is mapped by the
    normalisation to the float [v / 255.0], at the same position of the
    same image, and that float lies in the interval [0, 1]. *)
Theorem X_train_normalize_unit_interval (X_train : list (list Z)) :
  (forall x v, x ∈ X_train -> v ∈ x -> 0 <= v <= 255) ->
  length (X_train_normalize X_train) = length X_train /\
  forall (i j : nat) (x : list Z) (v : Z),
    X_train !! i = Some x -> x !! j = Some v ->
    exists x' : list float,
      X_train_normalize X_train !! i = Some x' /\
      length x' = length x /\
      x' !! j = Some (Z_to_float v / 255)%float /\
      PrimFloat.leb 0 (Z_to_float v / 255) = true /\
      PrimFloat.leb (Z_to_float v / 255) 1 = true.
Proof.
  intros Hpix. unfold X_train_normalize. split.
  { by rewrite length_fmap. }
  intros i j x v Hi Hj.
  exists (normalize_pixel <$> x). rewrite list_lookup_fmap, Hi. simpl.
  split; [done|]. rewrite length_fmap. split; [done|].
  rewrite list_lookup_fmap, Hj. simpl. split; [done|].
  assert (Hb : in_unit_interval (normalize_pixel v) = true).
  { apply normalize_pixel_bounds.
    apply (Hpix x v); eapply list_elem_of_lookup_2; eauto. }
  unfold in_unit_interval, normalize_pixel in Hb.
  apply andb_true_iff in Hb. exact Hb.
Qed.

Lemma X_train_normalize_unit_interval_witness :
  exists x' : list float,
    X_train_normalize [[0; 128; 255]] !! 0%nat = Some x' /\
    x' !! 1%nat = Some (Z_to_float 128 / 255)%float /\
    PrimFloat.leb 0 (Z_to_float 128 / 255) = true /\
    PrimFloat.leb (Z_to_float 128 / 255) 1 = true.
Proof.
  assert (Hpix : forall x v, x ∈ [[0; 128; 255]] -> v ∈ x -> 0 <= v <= 255).
  { intros x v Hx Hv. apply list_elem_of_singleton in Hx. subst x.
    repeat (apply elem_of_cons in Hv; destruct Hv as [->|Hv]; [lia|]).
    by apply elem_of_nil in Hv. }
  destruct (X_train_normalize_unit_interval [[0; 128; 255]] Hpix) as [_ H].
  destruct (H 0%nat 1%nat [0; 128; 255] 128 eq_refl eq_refl)
    as (x' & H1 & _ & H2 & H3 & H4).
  exists x'. auto.
Defined.

(** ** Reshaping *)

Lemma tmp_y_label (c : Z) :
  0 <= c <= 9 -> tmp_y c = Ok (single_entry 10 (Z.to_nat c) (Z_to_float c)).
Proof.
  intros Hc.
  assert (Hn : exists n : nat, (n < 10)%nat /\ c = Z.of_nat n).
  { exists (Z.to_nat c). lia. }
  destruct Hn as (n & Hn & ->).
  do 10 (destruct n as [|n]; [reflexivity|]). lia.
Qed.

Lemma single_entry_lookup (n c : nat) (v : float) :
  (c < n)%nat ->
  single_entry n c v !! c = Some [v] /\
  forall j, (j < n)%nat -> j <> c -> single_entry n c v !! j = Some [0%float].
Proof.
  intros Hc. unfold single_entry, column, np_zeros. split.
  - rewrite list_lookup_fmap, list_lookup_insert_eq; [done|].
    by rewrite length_replicate.
  - intros j Hj Hne.
    rewrite list_lookup_fmap, list_lookup_insert_ne by done.
    by rewrite lookup_replicate_2.
Qed.

Lemma single_entry_shape (n c : nat) (v : float) :
  has_shape (single_entry n c v) n 1.
Proof.
  unfold has_shape, single_entry, column, np_zeros. split.
  - by rewrite length_fmap, length_insert, length_replicate.
  - apply Forall_fmap, Forall_forall. done.
Qed.

Lemma column_shape (row : list float) : has_shape (column row) (length row) 1.
Proof.
  unfold has_shape, column. split.
  - by rewrite length_fmap.
  - apply Forall_fmap, Forall_forall. done.
Qed.

(** One iteration on a row that exists, with a label among the ten
    classes, assigns slot [i] and raises nothing. *)
Lemma reshape_body_ok (X : DataFrame) (y : Series) (i : nat) (st : loop_state)
    (row : list float) (c : Z) :
  X !! i = Some row -> y !! i = Some c -> 0 <= c <= 9 ->
  exists out,
    reshape_body X y i st =
      (mkLoop out
         (<[i := Some (column row, single_entry 10 (Z.to_nat c) (Z_to_float c))]>
            (slots st)), Ok tt).
Proof.
  intros HX Hy Hc. unfold reshape_body, tmp_x, iloc, series_get.
  rewrite HX, Hy. simpl. rewrite (tmp_y_label c Hc). simpl.
  destruct (Z.of_nat i mod 15000 =? 0); eexists; reflexivity.
Qed.

(** The loop invariant: running the body over [k .. k+n-1] fills exactly
    those slots and leaves the others as they were. *)
Lemma reshape_loop_ok (X : DataFrame) (y : Series) :
  labelled X y ->
  forall (n k : nat) (st : loop_state),
    (k + n <= length X)%nat -> length (slots st) = length X ->
    exists st',
      reshape_loop X y (seq k n) st = (st', Ok tt) /\
      length (slots st') = length X /\
      (forall i, (k <= i < k + n)%nat ->
         exists row c, X !! i = Some row /\ y !! i = Some c /\
           slots st' !! i =
             Some (Some (column row,
                         single_entry 10 (Z.to_nat c) (Z_to_float c)))) /\
      (forall i, ~ (k <= i < k + n)%nat -> slots st' !! i = slots st !! i).
Proof.
  intros [Hlen Hlab] n. induction n as [|n IH]; intros k st Hk Hst.
  - exists st. simpl. split; [done|]. split; [done|].
    split; [intros i Hi; lia | done].
  - destruct (lookup_lt_is_Some_2 X k) as [row Hrow]; [lia|].
    destruct (lookup_lt_is_Some_2 y k) as [c Hc]; [lia|].
    assert (Hrange : 0 <= c <= 9).
    { rewrite Forall_forall in Hlab. apply Hlab.
      eapply list_elem_of_lookup_2; eauto. }
    destruct (reshape_body_ok X y k st row c Hrow Hc Hrange) as [out Hbody].
    simpl. rewrite Hbody.
    set (st1 := mkLoop out _).
    destruct (IH (S k) st1) as (st' & Hrun & Hlen' & Hin & Hout).
    { lia. }
    { subst st1. simpl. by rewrite length_insert. }
    exists st'. split; [done|]. split; [done|]. split.
    + intros i Hi. destruct (decide (i = k)) as [->|Hne].
      * exists row, c. split; [done|]. split; [done|].
        rewrite Hout by lia. subst st1. simpl.
        apply list_lookup_insert_eq. lia.
      * apply Hin. lia.
    + intros i Hi. rewrite Hout by lia. subst st1. simpl.
      apply list_lookup_insert_ne. lia.
Qed.

(** The cell runs to completion on labelled data, and slot [i] then holds
    the column of row [i] and the target built from label [i]. *)
Lemma training_data_spec (X : DataFrame) (y : Series) :
  labelled X y ->
  exists td,
    training_data X y = Ok td /\ length td = length X /\
    forall i row c, X !! i = Some row -> y !! i = Some c ->
      td !! i =
        Some (Some (column row, single_entry 10 (Z.to_nat c) (Z_to_float c))).
Proof.
  intros HL.
  destruct (reshape_loop_ok X y HL (length X) 0
              (mkLoop [] (replicate (length X) None)))
    as (st' & Hrun & Hlen & Hin & _).
  { lia. }
  { simpl. by rewrite length_replicate. }
  exists (slots st'). unfold training_data, reshape, num_rows.
  rewrite Hrun. split; [done|]. split; [done|].
  intros i row c HX Hy.
  destruct (Hin i) as (row' & c' & HX' & Hy' & Hslot).
  { apply lookup_lt_Some in HX. lia. }
  congruence.
Qed.

(** C2. On labelled data the cell completes, and for every training
    example with class label [c] the target vector holds the class index
    [c] itself, as a float, at row [c] and zero at every other row. *)
Theorem training_data_target_is_label (X : DataFrame) (y : Series) :
  labelled X y ->
  exists td,
    training_data X y = Ok td /\ length td = length X /\
    forall (i : nat) (c : Z),
      (i < length X)%nat -> y !! i = Some c ->
      exists tx ty : ndarray,
        td !! i = Some (Some (tx, ty)) /\
        ty !! Z.to_nat c = Some [Z_to_float c] /\
        forall j : nat,
          (j < 10)%nat -> j <> Z.to_nat c -> ty !! j = Some [0%float].
Proof.
  intros HL. destruct (training_data_spec X y HL) as (td & Htd & Hlen & Hslot).
  exists td. split; [done|]. split; [done|].
  intros i c Hi Hy.
  destruct (lookup_lt_is_Some_2 X i Hi) as [row Hrow].
  assert (Hc : 0 <= c <= 9).
  { destruct HL as [_ Hlab]. rewrite Forall_forall in Hlab. apply Hlab.
    eapply list_elem_of_lookup_2; eauto. }
  exists (column row), (single_entry 10 (Z.to_nat c) (Z_to_float c)).
  split; [by apply Hslot|].
  apply single_entry_lookup. lia.
Qed.

Lemma labelled_sample :
  labelled [[0.5%float; 0.25%float]; [1%float; 0%float]] [3; 0].
Proof. split; [simpl; lia|]. repeat constructor; lia. Defined.

Lemma training_data_target_is_label_witness :
  exists td,
    training_data [[0.5%float; 0.25%float]; [1%float; 0%float]] [3; 0]
      = Ok td /\
    exists tx ty : ndarray,
      td !! 0%nat = Some (Some (tx, ty)) /\ ty !! 3%nat = Some [3%float].
Proof.
  destruct (training_data_target_is_label _ _ labelled_sample)
    as (td & Htd & _ & H).
  exists td. split; [exact Htd|].
  destruct (H 0%nat 3) as (tx & ty & H1 & H2 & _); [simpl; lia|reflexivity|].
  exists tx, ty. split; [exact H1|exact H2].
Defined.

(** C10. On labelled data, every example whose class label is [0] gets
    the all-zeros target: the very array [np.zeros(10)] the cell starts
    from, with no non-zero entry. *)
Theorem training_data_label0_all_zeros (X : DataFrame) (y : Series) :
  labelled X y ->
  exists td,
    training_data X y = Ok td /\
    forall i : nat,
      (i < length X)%nat -> y !! i = Some 0 ->
      exists tx ty : ndarray,
        td !! i = Some (Some (tx, ty)) /\
        ty = column (np_zeros 10) /\
        forall j : nat, (j < 10)%nat -> ty !! j = Some [0%float].
Proof.
  intros HL. destruct (training_data_spec X y HL) as (td & Htd & Hlen & Hslot).
  exists td. split; [done|].
  intros i Hi Hy.
  destruct (lookup_lt_is_Some_2 X i Hi) as [row Hrow].
  exists (column row), (column (np_zeros 10)).
  split; [by rewrite (Hslot i row 0 Hrow Hy)|]. split; [done|].
  intros j Hj. unfold column, np_zeros.
  by rewrite list_lookup_fmap, lookup_replicate_2.
Qed.

Lemma training_data_label0_all_zeros_witness :
  exists td,
    training_data [[0.5%float; 0.25%float]; [1%float; 0%float]] [3; 0]
      = Ok td /\
    exists tx : ndarray,
      td !! 1%nat = Some (Some (tx, column (np_zeros 10))).
Proof.
  destruct (training_data_label0_all_zeros _ _ labelled_sample)
    as (td & Htd & H).
  exists td. split; [exact Htd|].
  destruct (H 1%nat) as (tx & ty & H1 & H2 & _); [simpl; lia|reflexivity|].
  exists tx. rewrite <- H2. exact H1.
Defined.

(** C4. On labelled data whose rows have 784 features, every example pair
    matches the topology [[784, 30, 10]] of the network: the features are
    a column of [sizes[0] = 784] entries and the target is a column of
    [sizes[-1] = 10] entries. *)
Theorem training_data_shapes (X : DataFrame) (y : Series) :
  labelled X y ->
  Forall (fun row => length row = 784%nat) X ->
  head topology = Some 784%nat /\ last topology = Some 10%nat /\
  exists td,
    training_data X y = Ok td /\ length td = length X /\
    forall i : nat,
      (i < length X)%nat ->
      exists tx ty : ndarray,
        td !! i = Some (Some (tx, ty)) /\
        has_shape tx 784 1 /\ has_shape ty 10 1.
Proof.
  intros HL Hcols. split; [done|]. split; [done|].
  destruct (training_data_spec X y HL) as (td & Htd & Hlen & Hslot).
  exists td. split; [done|]. split; [done|].
  intros i Hi.
  destruct (lookup_lt_is_Some_2 X i Hi) as [row Hrow].
  destruct (lookup_lt_is_Some_2 y i) as [c Hc]; [destruct HL; lia|].
  exists (column row), (single_entry 10 (Z.to_nat c) (Z_to_float c)).
  split; [by apply Hslot|]. split.
  - rewrite Forall_forall in Hcols.
    rewrite <- (Hcols row) by (eapply list_elem_of_lookup_2; eauto).
    apply column_shape.
  - apply single_entry_shape.
Qed.

Lemma training_data_shapes_witness :
  exists td,
    training_data [replicate 784 0.5%float] [7] = Ok td /\
    exists tx ty : ndarray,
      td !! 0%nat = Some (Some (tx, ty)) /\
      has_shape tx 784 1 /\ has_shape ty 10 1.
Proof.
  assert (HL : labelled [replicate 784 0.5%float] [7]).
  { split; [simpl; lia|]. repeat constructor; lia. }
  assert (Hcols : Forall (fun row : list float => length row = 784%nat)
                    [replicate 784 0.5%float]).
  { repeat constructor. }
  destruct (training_data_shapes _ _ HL Hcols) as (_ & _ & td & Htd & _ & H).
  exists td. split; [exact Htd|]. apply H. simpl. lia.
Defined.

(** The target the cell builds is the one-hot encoding for class 1 only. *)
Lemma tmp_y_one_hot_iff (c : Z) :
  0 <= c <= 9 -> (tmp_y c = Ok (one_hot 10 (Z.to_nat c)) <-> c = 1).
Proof.
  intros Hc. rewrite (tmp_y_label c Hc). split.
  - intros H. injection H as H.
    assert (Hn : exists n : nat, (n < 10)%nat /\ c = Z.of_nat n).
    { exists (Z.to_nat c). lia. }
    destruct Hn as (n & Hn & ->).
    apply (f_equal (fun t : ndarray =>
             match t !! n with
             | Some [v] => PrimFloat.eqb v 1
             | _ => false
             end)) in H.
    do 10 (destruct n as [|n]; [vm_compute in H; try discriminate H; lia|]).
    lia.
  - intros ->. reflexivity.
Qed.

(** C1. The target of an example labelled 3 is not the one-hot encoding
    of 3: row 3 holds 3.0 where the encoding has 1. *)
Theorem training_data_label3_not_one_hot :
  exists tx ty : ndarray,
    training_data [[0.5%float; 0.25%float]] [3] = Ok [Some (tx, ty)] /\
    has_shape ty 10 1 /\
    ty !! 3%nat = Some [3%float] /\
    one_hot 10 3 !! 3%nat = Some [1%float] /\
    ty <> one_hot 10 3.
Proof.
  exists (column [0.5%float; 0.25%float]), (single_entry 10 3 3%float).
  split; [reflexivity|]. split; [apply single_entry_shape|].
  split; [reflexivity|]. split; [reflexivity|].
  intros H.
  apply (f_equal (fun t : ndarray =>
           match t !! 3%nat with
           | Some [v] => PrimFloat.eqb v 1
           | _ => false
           end)) in H.
  vm_compute in H. discriminate H.
Qed.

(** ** The cell on data it does not accept *)

Example training_data_label_out_of_range :
  training_data [[0.5%float]] [10] = Raise IndexError.
Proof. reflexivity. Qed.

Example training_data_missing_outcome :
  training_data [[0.5%float]; [0.25%float]] [3] = Raise KeyError.
Proof. reflexivity. Qed.

Example reshape_prints_first_index :
  stdout (reshape [[0.5%float]; [0.25%float]] [3; 4]).1 = [0%nat].
Proof. reflexivity. Qed.

(** * Part II: properties of the network model *)

Import Network.

Section NetworkProperties.

Context {num : Type} {SC : Scalar num} {rng : Type} {RG : RandomGen num rng}.

Abbreviation vec := (list num).
Abbreviation mat := (list (list num)).
Abbreviation network := (@Network num).
Abbreviation gradients := (@Gradients num).
Abbreviation tstate := (@state num rng).

(** ** Shapes of the array operations *)

Lemma Forall_zip_with_both {A B C : Type} (P : A -> Prop) (Q : B -> Prop)
    (R : C -> Prop) (f : A -> B -> C) (l : list A) (k : list B) :
  (forall a b, P a -> Q b -> R (f a b)) ->
  Forall P l -> Forall Q k -> Forall R (zip_with f l k).
Proof.
  intros Hf Hl. revert k.
  induction Hl as [|a l Ha Hl IH]; intros k Hk; [constructor|].
  destruct Hk as [|b k Hb Hk]; simpl; constructor; auto.
Qed.

Lemma length_zip_with_eq {A B C : Type} (f : A -> B -> C) (l : list A)
    (k : list B) (n : nat) :
  length l = n -> length k = n -> length (zip_with f l k) = n.
Proof. intros Hl Hk. rewrite length_zip_with. lia. Qed.

Lemma mat_shape_zip_with (f : vec -> vec -> vec) (A B : mat) (r c : nat) :
  (forall u v, length u = c -> length v = c -> length (f u v) = c) ->
  mat_shape A r c -> mat_shape B r c -> mat_shape (zip_with f A B) r c.
Proof.
  intros Hf [HA1 HA2] [HB1 HB2]. split.
  - by apply length_zip_with_eq.
  - eapply Forall_zip_with_both; [|exact HA2|exact HB2]. simpl. auto.
Qed.

Lemma length_vscale (c : num) (v : vec) : length (vscale c v) = length v.
Proof. unfold vscale. by rewrite length_fmap. Qed.

Lemma mat_shape_mscale (k : num) (A : mat) (r c : nat) :
  mat_shape A r c -> mat_shape (mscale k A) r c.
Proof.
  intros [H1 H2]. unfold mscale. split.
  - by rewrite length_fmap.
  - apply Forall_fmap. eapply Forall_impl; [exact H2|].
    intros row Hrow. simpl. by rewrite length_vscale.
Qed.

Lemma mat_shape_mzeros_like (A : mat) (r c : nat) :
  mat_shape A r c -> mat_shape (mzeros_like A) r c.
Proof.
  intros [H1 H2]. unfold mzeros_like. split.
  - by rewrite length_fmap.
  - apply Forall_fmap. eapply Forall_impl; [exact H2|].
    intros row Hrow. simpl. unfold vzeros_like. by rewrite length_fmap.
Qed.

Lemma length_matvec (W : mat) (a : vec) : length (matvec W a) = length W.
Proof. unfold matvec. by rewrite length_fmap. Qed.

Lemma mat_shape_outer (d a : vec) : mat_shape (outer d a) (length d) (length a).
Proof.
  unfold outer. split.
  - by rewrite length_fmap.
  - apply Forall_fmap, Forall_forall. intros di _. simpl.
    by rewrite length_fmap.
Qed.

(** The transpose of a matrix with at least one row has one row per column
    of the matrix. *)
Lemma length_transpose (W : mat) (r c : nat) :
  (0 < r)%nat -> mat_shape W r c -> length (transpose W) = c.
Proof.
  intros Hr [H1 H2]. destruct W as [|row W]; simpl in *; [lia|].
  rewrite length_fmap, length_seq. by inversion H2.
Qed.

(** ** The shape invariant, layer by layer *)

Lemma layers_ok_cons (n0 n1 : nat) (rest : list nat) (bs : list vec)
    (ws : list mat) :
  layers_ok (n0 :: n1 :: rest) bs ws <->
  exists b bs' w ws',
    bs = b :: bs' /\ ws = w :: ws' /\ length b = n1 /\ mat_shape w n1 n0 /\
    layers_ok (n1 :: rest) bs' ws'.
Proof.
  simpl. destruct bs as [|b bs'], ws as [|w ws']; split;
    try (intros []; fail); try (intros (?&?&?&?&?&?&?); discriminate).
  - intros (H1 & H2 & H3). exists b, bs', w, ws'. auto.
  - intros (?&?&?&?&Hb&Hw&H1&H2&H3).
    injection Hb as -> ->. injection Hw as -> ->. auto.
Qed.

Lemma layers_ok_short (szs : list nat) (bs : list vec) (ws : list mat) :
  (length szs <= 1)%nat -> layers_ok szs bs ws <-> bs = [] /\ ws = [].
Proof.
  destruct szs as [|n0 [|n1 rest]]; simpl; intros H; try done. lia.
Qed.

Lemma layers_ok_zip_with (f : vec -> vec -> vec) (g : mat -> mat -> mat)
    (szs : list nat) :
  (forall u v n, length u = n -> length v = n -> length (f u v) = n) ->
  (forall A B r c, mat_shape A r c -> mat_shape B r c ->
                   mat_shape (g A B) r c) ->
  forall b1 w1 b2 w2,
    layers_ok szs b1 w1 -> layers_ok szs b2 w2 ->
    layers_ok szs (zip_with f b1 b2) (zip_with g w1 w2).
Proof.
  intros Hf Hg. induction szs as [|n0 rest IH]; intros b1 w1 b2 w2 H1 H2.
  - apply layers_ok_short in H1 as [-> ->]; [|simpl; lia]. by simpl.
  - destruct rest as [|n1 rest].
    + apply layers_ok_short in H1 as [-> ->]; [|simpl; lia]. by simpl.
    + apply layers_ok_cons in H1 as (x1 & bs1 & y1 & ws1 & -> & -> & ? & ? & ?).
      apply layers_ok_cons in H2 as (x2 & bs2 & y2 & ws2 & -> & -> & ? & ? & ?).
      apply layers_ok_cons. simpl. do 4 eexists.
      split; [reflexivity|]. split; [reflexivity|].
      split; [by apply Hf|]. split; [by apply Hg|]. by apply IH.
Qed.

Lemma layers_ok_zeros (szs : list nat) :
  forall bs ws,
    layers_ok szs bs ws ->
    layers_ok szs (vzeros_like <$> bs) (mzeros_like <$> ws).
Proof.
  induction szs as [|n0 rest IH]; intros bs ws H.
  - apply layers_ok_short in H as [-> ->]; [|simpl; lia]. by simpl.
  - destruct rest as [|n1 rest].
    + apply layers_ok_short in H as [-> ->]; [|simpl; lia]. by simpl.
    + apply layers_ok_cons in H as (b & bs' & w & ws' & -> & -> & ? & ? & ?).
      apply layers_ok_cons. simpl. do 4 eexists.
      split; [reflexivity|]. split; [reflexivity|].
      split; [unfold vzeros_like; by rewrite length_fmap|].
      split; [by apply mat_shape_mzeros_like|by apply IH].
Qed.

(** ** Construction *)

Lemma length_randn_vec (n : nat) (g : rng) : length (randn_vec n g).1 = n.
Proof.
  revert g. induction n as [|n IH]; intros g; simpl; [done|].
  destruct (randn g) as [a g1]. specialize (IH g1).
  destruct (randn_vec n g1) as [v g2]. simpl in *. by rewrite IH.
Qed.

Lemma randn_mat_shape (r c : nat) (g : rng) : mat_shape (randn_mat r c g).1 r c.
Proof.
  revert g. induction r as [|r IH]; intros g; simpl.
  - split; [done|constructor].
  - pose proof (length_randn_vec c g) as Hrow.
    destruct (randn_vec c g) as [row g1]. specialize (IH g1).
    destruct (randn_mat r c g1) as [W g2]. simpl in *.
    destruct IH as [IH1 IH2]. split; [simpl; by rewrite IH1|by constructor].
Qed.

Lemma init_layers_ok (szs : list nat) (g : rng) :
  layers_ok szs (init_layers szs g).1.1 (init_layers szs g).1.2.
Proof.
  revert g. induction szs as [|n0 rest IH]; intros g; [by simpl|].
  destruct rest as [|n1 rest]; [by simpl|].
  apply layers_ok_cons.
  change (init_layers (n0 :: n1 :: rest) g) with
    (let (b, g1) := randn_vec n1 g in
     let (w, g2) := randn_mat n1 n0 g1 in
     let '(bs, ws, g3) := init_layers (n1 :: rest) g2 in
     (b :: bs, w :: ws, g3)).
  pose proof (length_randn_vec n1 g) as Hb.
  destruct (randn_vec n1 g) as [b g1].
  pose proof (randn_mat_shape n1 n0 g1) as Hw.
  destruct (randn_mat n1 n0 g1) as [w g2].
  specialize (IH g2).
  destruct (init_layers (n1 :: rest) g2) as [[bs ws] g3]. simpl in *.
  exists b, bs, w, ws. auto.
Qed.

(** The recursive form of the invariant gives the indexed form of the
    spec. *)
Lemma layers_ok_indexed (szs : list nat) :
  forall (bs : list vec) (ws : list mat),
    layers_ok szs bs ws ->
    length ws = (length szs - 1)%nat /\ length bs = (length szs - 1)%nat /\
    forall (i nl nprev : nat),
      szs !! S i = Some nl -> szs !! i = Some nprev ->
      exists W b, ws !! i = Some W /\ bs !! i = Some b /\
        mat_shape W nl nprev /\ vec_shape b = (nl, 1%nat).
Proof.
  induction szs as [|n0 rest IH]; intros bs ws H.
  - apply layers_ok_short in H as [-> ->]; [|simpl; lia].
    split; [done|]. split; [done|]. intros i nl nprev Hi. done.
  - destruct rest as [|n1 rest].
    + apply layers_ok_short in H as [-> ->]; [|simpl; lia].
      split; [done|]. split; [done|]. intros i nl nprev Hi. done.
    + apply layers_ok_cons in H as (b & bs' & w & ws' & -> & -> & Hb & Hw & H).
      destruct (IH bs' ws' H) as (Hlw & Hlb & Hidx).
      simpl in *. split; [lia|]. split; [lia|].
      intros [|i] nl nprev Hl Hp.
      * injection Hl as <-. injection Hp as <-.
        exists w, b. unfold vec_shape. by rewrite Hb.
      * simpl. apply Hidx; done.
Qed.

Lemma layers_ok_shape_invariant (szs : list nat) (n : network) :
  sizes n = szs -> layers_ok szs (biases n) (weights n) ->
  shape_invariant szs n.
Proof.
  intros Hs H. destruct (layers_ok_indexed szs _ _ H) as (Hw & Hb & Hidx).
  split; [done|]. split; [done|]. split; [done|].
  intros l nl nprev Hl Hnl Hnp.
  destruct l as [|i]; [lia|]. simpl in *.
  rewrite Nat.sub_0_r in *. by apply Hidx.
Qed.

Lemma new_layers_ok (szs : list nat) (g : rng) :
  sizes (new szs g).1 = szs /\
  layers_ok szs (biases (new szs g).1) (weights (new szs g).1).
Proof.
  unfold new. pose proof (init_layers_ok szs g) as H.
  destruct (init_layers szs g) as [[bs ws] g']. simpl in *. done.
Qed.

(** ** Gradients have the shapes of the Parameters *)

Lemma backprop_layers_cons (b : vec) (bs : list vec) (w : mat)
    (ws : list mat) (a y : vec) :
  backprop_layers (b :: bs) (w :: ws) a y =
    let z := vadd (matvec w a) b in
    let '(nb, nw, back) := backprop_layers bs ws (sigmoid <$> z) y in
    let delta := hadamard back (sigmoid_prime <$> z) in
    (delta :: nb, outer delta a :: nw, matvec (transpose w) delta).
Proof. reflexivity. Qed.

Lemma backprop_layers_shapes (szs : list nat) :
  Forall (fun k => (0 < k)%nat) szs ->
  forall (bs : list vec) (ws : list mat) (a y : vec),
    layers_ok szs bs ws ->
    head szs = Some (length a) -> last szs = Some (length y) ->
    layers_ok szs (backprop_layers bs ws a y).1.1
                  (backprop_layers bs ws a y).1.2 /\
    length (backprop_layers bs ws a y).2 = length a.
Proof.
  induction szs as [|n0 rest IH]; intros Hpos bs ws a y H Hhd Hlast;
    [done|].
  destruct rest as [|n1 rest].
  - apply layers_ok_short in H as [-> ->]; [|simpl; lia].
    simpl in *. split; [done|].
    injection Hhd as Hhd. injection Hlast as Hlast.
    unfold vsub. apply length_zip_with_eq; lia.
  - apply layers_ok_cons in H as (b & bs' & w & ws' & -> & -> & Hb & Hw & H).
    simpl in Hhd. injection Hhd as Hhd.
    change (last (n0 :: n1 :: rest)) with (last (n1 :: rest)) in Hlast.
    apply Forall_cons in Hpos as [Hn0 Hpos'].
    assert (Hn1 : (0 < n1)%nat) by (by apply Forall_cons in Hpos' as [? _]).
    assert (Hz : length (vadd (matvec w a) b) = n1).
    { unfold vadd. apply length_zip_with_eq; [|done].
      rewrite length_matvec. by destruct Hw. }
    rewrite backprop_layers_cons. cbv zeta.
    set (z := vadd (matvec w a) b) in *.
    destruct (IH Hpos' bs' ws' (sigmoid <$> z) y H) as [Hok Hback].
    { cbn [head]. by rewrite length_fmap, Hz. }
    { done. }
    clear IH.
    destruct (backprop_layers bs' ws' (sigmoid <$> z) y) as [[nb nw] back].
    cbn [fst snd] in *. rewrite length_fmap, Hz in Hback.
    assert (Hd : length (hadamard back (sigmoid_prime <$> z)) = n1).
    { unfold hadamard. apply length_zip_with_eq; [done|].
      by rewrite length_fmap. }
    split.
    + apply layers_ok_cons. do 4 eexists.
      split; [reflexivity|]. split; [reflexivity|].
      split; [done|]. split; [|done].
      rewrite <- Hd at 1. rewrite Hhd. apply mat_shape_outer.
    + rewrite length_matvec, <- Hhd. by apply (length_transpose w n1).
Qed.

Lemma backprop_shapes (szs : list nat) (n : network) (x y : vec)
    (g : gradients) :
  Forall (fun k => (0 < k)%nat) szs ->
  sizes n = szs -> layers_ok szs (biases n) (weights n) ->
  backprop n x y = Ok g -> layers_ok szs (nabla_b g) (nabla_w g).
Proof.
  intros Hpos Hs Hok. unfold backprop, shapes_match.
  destruct (bool_decide (head (sizes n) = Some (length x))) eqn:E1;
    simpl; [|discriminate].
  destruct (bool_decide (last (sizes n) = Some (length y))) eqn:E2;
    simpl; [|discriminate].
  apply bool_decide_eq_true in E1, E2. rewrite Hs in E1, E2.
  destruct (backprop_layers_shapes szs Hpos _ _ x y Hok E1 E2) as [H _].
  destruct (backprop_layers (biases n) (weights n) x y) as [[nb nw] back].
  intros Hg. injection Hg as <-. exact H.
Qed.

Lemma length_vadd (u v : vec) (k : nat) :
  length u = k -> length v = k -> length (vadd u v) = k.
Proof. apply length_zip_with_eq. Qed.

Lemma mat_shape_madd (A B : mat) (r c : nat) :
  mat_shape A r c -> mat_shape B r c -> mat_shape (madd A B) r c.
Proof. apply mat_shape_zip_with. intros u v. apply length_vadd. Qed.

Lemma sum_gradients_shapes (szs : list nat) (n : network) :
  Forall (fun k => (0 < k)%nat) szs ->
  sizes n = szs -> layers_ok szs (biases n) (weights n) ->
  forall (batch : list (vec * vec)) (acc g : gradients),
    layers_ok szs (nabla_b acc) (nabla_w acc) ->
    sum_gradients n batch acc = Ok g ->
    layers_ok szs (nabla_b g) (nabla_w g).
Proof.
  intros Hpos Hs Hok batch.
  induction batch as [|[x y] rest IH]; intros acc g Hacc Hsum; simpl in Hsum.
  - injection Hsum as <-. exact Hacc.
  - destruct (backprop n x y) as [e|gx] eqn:Hbp; simpl in Hsum; [discriminate|].
    apply (IH (add_gradients acc gx) g); [|exact Hsum].
    unfold add_gradients. simpl.
    apply layers_ok_zip_with; [apply length_vadd|apply mat_shape_madd|done|].
    eapply backprop_shapes; eauto.
Qed.

(** ** [update_mini_batch] keeps the sizes and the shapes *)

Lemma update_mini_batch_sizes (batch : list (vec * vec)) (lr : num)
    (n n' : network) :
  update_mini_batch batch lr n = Ok n' -> sizes n' = sizes n.
Proof.
  unfold update_mini_batch.
  destruct (sum_gradients n batch (zero_gradients n)) as [e|g]; simpl;
    [discriminate|].
  intros H. injection H as <-. done.
Qed.

Lemma update_mini_batch_shapes (szs : list nat) (batch : list (vec * vec))
    (lr : num) (n n' : network) :
  Forall (fun k => (0 < k)%nat) szs ->
  sizes n = szs -> layers_ok szs (biases n) (weights n) ->
  update_mini_batch batch lr n = Ok n' ->
  sizes n' = szs /\ layers_ok szs (biases n') (weights n').
Proof.
  intros Hpos Hs Hok. unfold update_mini_batch.
  destruct (sum_gradients n batch (zero_gradients n)) as [e|g] eqn:Hsum; simpl;
    [discriminate|].
  intros H. injection H as <-. simpl. split; [done|].
  apply sum_gradients_shapes with (szs := szs) in Hsum; try done.
  - apply layers_ok_zip_with; try done.
    + intros u v k Hu Hv. unfold vsub.
      apply length_zip_with_eq; [done|]. by rewrite length_vscale.
    + intros A B r c HA HB. unfold msub.
      apply mat_shape_zip_with; [|done|by apply mat_shape_mscale].
      intros u v Hu Hv. unfold vsub. by apply length_zip_with_eq.
  - unfold zero_gradients. simpl. by apply layers_ok_zeros.
Qed.

(** ** The shape invariant along every run *)

Lemma step_preserves_layers (szs : list nat) (s s' : tstate) :
  Forall (fun k => (0 < k)%nat) szs ->
  step s s' ->
  sizes (net s) = szs /\ layers_ok szs (biases (net s)) (weights (net s)) ->
  sizes (net s') = szs /\ layers_ok szs (biases (net s')) (weights (net s')).
Proof.
  intros Hpos Hstep [Hs Hok].
  destruct Hstep as [s x|s x y|s batch lr|s l|s epoch vs]; simpl.
  - done.
  - done.
  - unfold update_mini_batch_m.
    destruct (update_mini_batch batch lr (net s)) as [e|n'] eqn:Hup; simpl;
      [done|].
    by apply (update_mini_batch_shapes szs batch lr (net s) n').
  - unfold shuffle_m. destruct (shuffle (gen s) l) as [l' g']. done.
  - unfold report_m. destruct vs; done.
Qed.

Lemma reachable_layers_ok (szs : list nat) (g : rng) (s : tstate) :
  Forall (fun k => (0 < k)%nat) szs ->
  rtc step (init_state szs g) s ->
  sizes (net s) = szs /\ layers_ok szs (biases (net s)) (weights (net s)).
Proof.
  intros Hpos Hrun. revert s Hrun.
  apply (rtc_ind_r (fun s : tstate =>
           sizes (net s) = szs /\
           layers_ok szs (biases (net s)) (weights (net s)))).
  - unfold init_state. pose proof (new_layers_ok szs g) as Hnew.
    destruct (new szs g) as [n g']. exact Hnew.
  - intros s1 s2 _ Hstep IH. eapply step_preserves_layers; eauto.
Qed.

(** C8. For every valid layer configuration, in every state reached from
    construction by any sequence of operations (forward evaluations,
    backprop calls, mini-batch updates, shuffles, reports), weight matrix
    [l] has shape [(sizes[l], sizes[l-1])] and bias vector [l] has shape
    [(sizes[l], 1)] for every layer [l], and the sizes are those given at
    construction. *)
Theorem shape_invariant_always (szs : list nat) (g : rng) (s : tstate) :
  valid_sizes szs ->
  rtc step (init_state szs g) s ->
  shape_invariant szs (net s).
Proof.
  intros [_ Hpos] Hrun.
  destruct (reachable_layers_ok szs g s Hpos Hrun).
  by apply layers_ok_shape_invariant.
Qed.

(** ** Training is a sequence of steps *)

Lemma run_batches_steps (batches : list (list (vec * vec))) (lr : num) :
  forall s : tstate, rtc step s (run_batches batches lr s).2.
Proof.
  induction batches as [|batch rest IH]; intros s; simpl; [done|].
  unfold bind.
  pose proof (step_update s batch lr) as Hstep.
  destruct (update_mini_batch_m batch lr s) as [[e|[]] s1]; simpl in *.
  - by apply rtc_once.
  - eapply rtc_l; [exact Hstep|apply IH].
Qed.

Lemma run_epoch_steps (epoch : nat) (ts : list (vec * vec)) (k : nat)
    (lr : num) (vs : option (list (vec * target))) (s : tstate) :
  rtc step s (run_epoch epoch ts k lr vs s).2.
Proof.
  unfold run_epoch, bind.
  pose proof (step_shuffle s ts) as H1.
  unfold shuffle_m in *. destruct (shuffle (gen s) ts) as [l' g']. simpl in *.
  set (s1 := mkState (net s) g' (reports s)) in *.
  pose proof (run_batches_steps (mini_batches k l') lr s1) as H2.
  destruct (run_batches (mini_batches k l') lr s1) as [[e|[]] s2]; simpl in *.
  - eapply rtc_l; eauto.
  - pose proof (step_report s2 epoch vs) as H3.
    assert (H4 : rtc step s (report_m epoch vs s2).2).
    { eapply rtc_l; [exact H1|]. eapply rtc_r; eauto. }
    unfold report_m in *. destruct vs; simpl in *; exact H4.
Qed.

Lemma run_epochs_steps (count : nat) (k : nat) (lr : num)
    (vs : option (list (vec * target))) :
  forall (epoch : nat) (ts : list (vec * vec)) (s : tstate),
    rtc step s (run_epochs count epoch ts k lr vs s).2.
Proof.
  induction count as [|count IH]; intros epoch ts s; simpl; [done|].
  unfold bind. pose proof (run_epoch_steps epoch ts k lr vs s) as H1.
  destruct (run_epoch epoch ts k lr vs s) as [[e|ts'] s1]; simpl in *.
  - done.
  - etrans; [exact H1|apply IH].
Qed.

(** Every state [train] ends in, with a result or an exception, is reached
    by steps, so the shape invariant holds there. *)
Lemma train_steps (ts : list (vec * vec)) (epochs : nat) (k : Z) (lr : num)
    (vs : option (list (vec * target))) (s : tstate) :
  rtc step s (train ts epochs k lr vs s).2.
Proof.
  unfold train. destruct (valid_config ts k lr); [|done].
  unfold bind.
  pose proof (run_epochs_steps epochs (Z.to_nat k) lr vs 1 ts s) as H.
  destruct (run_epochs epochs 1 ts (Z.to_nat k) lr vs s) as [[e|[]] s1];
    simpl in *; done.
Qed.

(** In particular the invariant holds in the state a whole [train] call
    ends in, started on a freshly constructed network. *)
Lemma train_keeps_shapes (szs : list nat) (g : rng) (ts : list (vec * vec))
    (epochs : nat) (k : Z) (lr : num) (vs : option (list (vec * target))) :
  valid_sizes szs ->
  shape_invariant szs (net (train ts epochs k lr vs (init_state szs g)).2).
Proof.
  intros [_ Hpos].
  destruct (reachable_layers_ok szs g
              (train ts epochs k lr vs (init_state szs g)).2 Hpos
              (train_steps ts epochs k lr vs _)).
  by apply layers_ok_shape_invariant.
Qed.

(** ** [backprop]: the shape guard *)

(** C7. [backprop(x, y)] fails with ShapeMismatch exactly when the length
    of [x] differs from [sizes[0]] or the length of [y] differs from
    [sizes[-1]]; when both lengths match it returns gradients. In both
    cases the state is left as it was. *)
Theorem backprop_shape_mismatch_iff (s : tstate) (x y : vec) :
  ((backprop_m x y s).1 = Raise ShapeMismatch <->
     head (sizes (net s)) <> Some (length x) \/
     last (sizes (net s)) <> Some (length y)) /\
  (head (sizes (net s)) = Some (length x) /\
   last (sizes (net s)) = Some (length y) ->
     exists g, (backprop_m x y s).1 = Ok g) /\
  (backprop_m x y s).2 = s.
Proof.
  unfold backprop_m, backprop, shapes_match. simpl.
  destruct (backprop_layers (biases (net s)) (weights (net s)) x y)
    as [[nb nw] back].
  destruct (decide (head (sizes (net s)) = Some (length x))) as [H1|H1];
    destruct (decide (last (sizes (net s)) = Some (length y))) as [H2|H2].
  - rewrite !bool_decide_eq_true_2 by done. simpl.
    split; [|split; [eauto|done]].
    split; [discriminate|]. intros [?|?]; done.
  - rewrite bool_decide_eq_true_2, bool_decide_eq_false_2 by done. simpl.
    split; [|split; [|done]]; [split; auto|]. intros [_ ?]; done.
  - rewrite bool_decide_eq_false_2 by done. simpl.
    split; [|split; [|done]]; [split; auto|]. intros [? _]; done.
  - rewrite bool_decide_eq_false_2 by done. simpl.
    split; [|split; [|done]]; [split; auto|]. intros [? _]; done.
Qed.

(** ** [train]: configuration check *)

(** C6. Calling [train] with [mini_batch_size < 1], with [mini_batch_size]
    greater than the size of the training set, with a learning rate that is
    not positive, or with an empty training set raises ConfigError and
    leaves the whole state, Parameters included, as it was: no epoch has
    run. *)
Theorem train_config_error (ts : list (vec * vec)) (epochs : nat)
    (mini_batch_size : Z) (lr : num) (vs : option (list (vec * target)))
    (s : tstate) :
  mini_batch_size < 1 \/ len ts < mini_batch_size \/
    ltb zero lr = false \/ ts = [] ->
  train ts epochs mini_batch_size lr vs s = (Raise ConfigError, s).
Proof.
  intros H. unfold train.
  assert (Hv : valid_config ts mini_batch_size lr = false).
  { unfold valid_config.
    destruct H as [H|[H|[H|H]]].
    - replace (1 <=? mini_batch_size) with false by lia.
      by rewrite andb_false_r.
    - replace (mini_batch_size <=? len ts) with false by lia.
      by rewrite andb_false_r.
    - by rewrite H.
    - subst ts. by rewrite andb_false_r. }
  by rewrite Hv.
Qed.

(** ** [train]: the result *)









End NetworkProperties.

(** ** The theorems at a concrete network *)



Lemma sample_rate_negative : ltb zero (-1)%R = false.
Proof. simpl. destruct (Rlt_dec 0 (-1)) as [H|_]; [lra|reflexivity]. Defined.

Lemma shape_invariant_always_witness :
  shape_invariant [2; 3; 1]%nat
    (net (update_mini_batch_m sample_set 3%R sample_state).2).
Proof.
  apply (shape_invariant_always [2; 3; 1]%nat 0%nat).
  - split; [simpl; lia|repeat constructor; lia].
  - apply rtc_once. apply step_update.
Defined.

Lemma train_config_error_witness :
  train sample_set 5 0 3%R None sample_state
    = (Raise ConfigError, sample_state) /\
  train sample_set 5 1 (-1)%R None sample_state
    = (Raise ConfigError, sample_state).
Proof.
  split; apply train_config_error.
  - left. lia.
  - right. right. left. exact sample_rate_negative.
Defined.


Lemma backprop_shape_mismatch_iff_witness :
  (backprop_m [1%R] [1%R] sample_state).1 = Raise ShapeMismatch /\
  (exists g, (backprop_m [1%R; 0%R] [1%R] sample_state).1 = Ok g).
Proof.
  destruct (backprop_shape_mismatch_iff sample_state [1%R] [1%R])
    as ([_ H1] & _ & _).
  destruct (backprop_shape_mismatch_iff sample_state [1%R; 0%R] [1%R])
    as (_ & H2 & _).
  split.
  - apply H1. left. discriminate.
  - apply H2. split; reflexivity.
Defined.

Example mini_batches_partition :
  mini_batches 2 [1; 2; 3; 4; 5]%nat = [[1; 2]; [3; 4]; [5]]%nat.
Proof. reflexivity. Qed.

(** * Part I, continued: further properties of the data preparation *)

(** ** Normalisation keeps the order of the intensities *)

Lemma pixels_ordered :
  forallb (fun v =>
    negb (PrimFloat.ltb (normalize_pixel v) (normalize_pixel v)) &&
    forallb (fun w =>
      implb (v <? w)
        (PrimFloat.ltb (normalize_pixel v) (normalize_pixel w)))
      pixels) pixels = true.
Proof. vm_compute. reflexivity. Qed.

(** X1. A brighter pixel stays strictly brighter after the normalisation:
    for [0 <= v < w <= 255] the float for [v] is strictly below the float
    for [w], so distinct intensities are never merged. *)
Theorem normalize_pixel_strictly_monotone (v w : Z) :
  0 <= v -> v < w -> w <= 255 ->
  PrimFloat.ltb (normalize_pixel v) (normalize_pixel w) = true /\
  normalize_pixel v <> normalize_pixel w.
Proof.
  intros Hv Hvw Hw. pose proof pixels_ordered as Hall.
  rewrite forallb_forall in Hall.
  assert (Hin : forall u, 0 <= u <= 255 -> In u pixels).
  { intros u Hu. apply list_elem_of_In, pixels_complete, Hu. }
  pose proof (Hall v (Hin v ltac:(lia))) as Hrow.
  apply andb_true_iff in Hrow as [Hirr Hrow].
  rewrite forallb_forall in Hrow.
  specialize (Hrow w (Hin w ltac:(lia))).
  replace (v <? w) with true in Hrow by lia. simpl in Hrow.
  split; [exact Hrow|].
  intros Heq. rewrite <- Heq in Hrow. rewrite Hrow in Hirr. discriminate Hirr.
Qed.

Lemma normalize_pixel_strictly_monotone_witness :
  PrimFloat.ltb (normalize_pixel 127) (normalize_pixel 128) = true /\
  normalize_pixel 127 <> normalize_pixel 128.
Proof. apply normalize_pixel_strictly_monotone; lia. Defined.

(** ** The reshaping cell on arbitrary frames and series *)

Lemma tmp_y_index_ok (c : Z) :
  index_ok c ->
  tmp_y c = Ok (single_entry 10 (target_row c) (Z_to_float c)).
Proof.
  unfold index_ok. intros Hc.
  assert (Hn : exists n : nat, (n < 20)%nat /\ c = Z.of_nat n - 10).
  { exists (Z.to_nat (c + 10)). lia. }
  destruct Hn as (n & Hn & ->).
  do 20 (destruct n as [|n]; [reflexivity|]). lia.
Qed.

Lemma tmp_y_index_error (c : Z) : ~ index_ok c -> tmp_y c = Raise IndexError.
Proof.
  unfold index_ok. intros Hc. unfold tmp_y, setitem, normalize_index.
  change (length (column (np_zeros 10))) with 10%nat.
  change (Z.of_nat 10) with 10.
  destruct (Z.leb_spec 0 c), (Z.ltb_spec c 10), (Z.leb_spec (Z.opp 10) c),
    (Z.ltb_spec c 0); simpl; try reflexivity; exfalso; lia.
Qed.

Lemma index_ok_dec (c : Z) : {index_ok c} + {~ index_ok c}.
Proof.
  unfold index_ok.
  destruct (Z_le_dec (-10) c), (Z_le_dec c 9); [left|right..]; lia.
Defined.

(** One iteration, whatever the label: it prints first, then either stores
    the example or raises with the list untouched. *)
Lemma reshape_body_run (X : DataFrame) (y : Series) (i : nat)
    (st : loop_state) (row : list float) :
  X !! i = Some row ->
  reshape_body X y i st =
    match y !! i with
    | None => (mkLoop (stdout st ++ printed_at i) (slots st), Raise KeyError)
    | Some c =>
      if index_ok_dec c
      then (mkLoop (stdout st ++ printed_at i)
                   (<[i := stored row c]> (slots st)), Ok tt)
      else (mkLoop (stdout st ++ printed_at i) (slots st), Raise IndexError)
    end.
Proof.
  intros HX. unfold reshape_body, tmp_x, iloc, series_get, printed_at.
  rewrite HX. simpl.
  assert (Hst : (if Z.of_nat i mod 15000 =? 0
                 then mkLoop (stdout st ++ [i]) (slots st) else st) =
                mkLoop (stdout st ++
                          (if Z.of_nat i mod 15000 =? 0 then [i] else []))
                       (slots st)).
  { destruct (Z.of_nat i mod 15000 =? 0); [done|].
    destruct st. simpl. by rewrite app_nil_r. }
  rewrite Hst. clear Hst.
  destruct (y !! i) as [c|]; simpl; [|done].
  destruct (index_ok_dec c) as [Hc|Hc].
  - by rewrite (tmp_y_index_ok c Hc).
  - by rewrite (tmp_y_index_error c Hc).
Qed.

(** The loop over [k .. k+n-1] when every row there is good. *)
Lemma reshape_loop_good (X : DataFrame) (y : Series) :
  forall (n k : nat) (st : loop_state),
    (k + n <= length X)%nat -> length (slots st) = length X ->
    (forall i, (k <= i < k + n)%nat -> good_row y i) ->
    exists st',
      reshape_loop X y (seq k n) st = (st', Ok tt) /\
      length (slots st') = length X /\
      stdout st' = stdout st ++ concat (printed_at <$> seq k n) /\
      (forall i row c, (k <= i < k + n)%nat ->
         X !! i = Some row -> y !! i = Some c ->
         slots st' !! i = Some (stored row c)) /\
      (forall i, ~ (k <= i < k + n)%nat -> slots st' !! i = slots st !! i).
Proof.
  induction n as [|n IH]; intros k st Hk Hst Hgood.
  - exists st. simpl. split; [done|]. split; [done|].
    split; [by rewrite app_nil_r|]. split; [intros; lia|done].
  - destruct (lookup_lt_is_Some_2 X k) as [row Hrow]; [lia|].
    destruct (Hgood k) as (c & Hc & Hok); [lia|].
    simpl. rewrite (reshape_body_run X y k st row Hrow), Hc.
    destruct (index_ok_dec c) as [_|Hbad]; [|done].
    set (st1 := mkLoop _ _).
    destruct (IH (S k) st1) as (st' & Hrun & Hlen & Hout & Hin & Hrest).
    { lia. }
    { subst st1. simpl. by rewrite length_insert. }
    { intros i Hi. apply Hgood. lia. }
    exists st'. split; [done|]. split; [done|]. split.
    { rewrite Hout. subst st1. simpl. by rewrite <- app_assoc. }
    split.
    + intros i row' c' Hi HX Hy. destruct (decide (i = k)) as [->|Hne].
      * rewrite Hrest by lia. subst st1. simpl.
        rewrite list_lookup_insert_eq by lia. congruence.
      * apply Hin; [lia|done..].
    + intros i Hi. rewrite Hrest by lia. subst st1. simpl.
      apply list_lookup_insert_ne. lia.
Qed.

(** The loop over [k .. k+n-1] when row [j] is the first that is not
    good: it stops there with the exception [e] of that row. *)
Lemma reshape_loop_bad (X : DataFrame) (y : Series) (j : nat) (e : exn) :
  (y !! j = None /\ e = KeyError) \/
  (exists c, y !! j = Some c /\ ~ index_ok c /\ e = IndexError) ->
  forall (n k : nat) (st : loop_state),
    (k + n <= length X)%nat -> length (slots st) = length X ->
    (k <= j < k + n)%nat ->
    (forall i, (k <= i < j)%nat -> good_row y i) ->
    exists st',
      reshape_loop X y (seq k n) st = (st', Raise e) /\
      length (slots st') = length X /\
      stdout st' = stdout st ++ concat (printed_at <$> seq k (S j - k)) /\
      (forall i row c, (k <= i < j)%nat ->
         X !! i = Some row -> y !! i = Some c ->
         slots st' !! i = Some (stored row c)) /\
      (forall i, ~ (k <= i < j)%nat -> slots st' !! i = slots st !! i).
Proof.
  intros Hbad. induction n as [|n IH]; intros k st Hk Hst Hj Hgood; [lia|].
  destruct (lookup_lt_is_Some_2 X k) as [row Hrow]; [lia|].
  simpl. rewrite (reshape_body_run X y k st row Hrow).
  destruct (decide (k = j)) as [->|Hne].
  - replace (S j - j)%nat with 1%nat by lia. simpl. rewrite app_nil_r.
    destruct Hbad as [[Hy ->]|(c & Hy & Hc & ->)]; rewrite Hy.
    + eexists. split; [reflexivity|]. simpl.
      split; [done|]. split; [done|]. split; [intros; lia|done].
    + destruct (index_ok_dec c) as [?|_]; [done|].
      eexists. split; [reflexivity|]. simpl.
      split; [done|]. split; [done|]. split; [intros; lia|done].
  - destruct (Hgood k) as (c & Hc & Hok); [lia|]. rewrite Hc.
    destruct (index_ok_dec c) as [_|?]; [|done].
    set (st1 := mkLoop _ _).
    destruct (IH (S k) st1) as (st' & Hrun & Hlen & Hout & Hin & Hrest).
    { lia. }
    { subst st1. simpl. by rewrite length_insert. }
    { lia. }
    { intros i Hi. apply Hgood. lia. }
    exists st'. split; [done|]. split; [done|]. split.
    { rewrite Hout. subst st1. simpl. rewrite <- app_assoc.
      replace (S j - k)%nat with (S (S j - S k)) by lia. done. }
    split.
    + intros i row' c' Hi HX Hy. destruct (decide (i = k)) as [->|Hik].
      * rewrite Hrest by lia. subst st1. simpl.
        rewrite list_lookup_insert_eq by lia. congruence.
      * apply Hin; [lia|done..].
    + intros i Hi. rewrite Hrest by lia. subst st1. simpl.
      apply list_lookup_insert_ne. lia.
Qed.

Lemma reshape_loop_ok_inv (X : DataFrame) (y : Series) :
  forall (n k : nat) (st st' : loop_state),
    (k + n <= length X)%nat ->
    reshape_loop X y (seq k n) st = (st', Ok tt) ->
    forall i, (k <= i < k + n)%nat -> good_row y i.
Proof.
  induction n as [|n IH]; intros k st st' Hk Hrun i Hi; [lia|].
  destruct (lookup_lt_is_Some_2 X k) as [row Hrow]; [lia|].
  simpl in Hrun. rewrite (reshape_body_run X y k st row Hrow) in Hrun.
  destruct (y !! k) as [c|] eqn:Hc; [|discriminate Hrun].
  destruct (index_ok_dec c) as [Hok|Hbad]; [|discriminate Hrun].
  destruct (decide (i = k)) as [->|Hne].
  - exists c. done.
  - eapply (IH (S k)); [|exact Hrun|]; lia.
Qed.

Lemma concat_column (row : list float) : concat (column row) = row.
Proof. induction row as [|a row IH]; simpl; [done|]. by rewrite IH. Qed.

Lemma concat_printed_at (l : list nat) :
  concat (printed_at <$> l) =
  filter (fun i : nat => Z.of_nat i mod 15000 = 0) l.
Proof.
  induction l as [|i l IH]; [done|].
  rewrite fmap_cons. cbn [concat]. rewrite IH. unfold printed_at.
  rewrite filter_cons.
  destruct (Z.eqb_spec (Z.of_nat i mod 15000) 0) as [E|E];
    destruct (decide (Z.of_nat i mod 15000 = 0)); done.
Qed.

Lemma training_data_ok_good (X : DataFrame) (y : Series)
    (td : list (option example)) :
  training_data X y = Ok td ->
  forall i : nat, (i < length X)%nat -> good_row y i.
Proof.
  unfold training_data, reshape, num_rows. intros Htd i Hi.
  destruct (reshape_loop X y (seq 0 (length X))
              (mkLoop [] (replicate (length X) None)))
    as [st [e|[]]] eqn:Hrun; [discriminate Htd|].
  eapply (reshape_loop_ok_inv X y (length X) 0); [|exact Hrun|]; lia.
Qed.

(** X2. The reshaping cell completes without an exception exactly when
    every row of [X] has an outcome in [y] and that outcome is an index the
    ten-row target accepts, [-10 <= c <= 9]. *)
Theorem training_data_succeeds_iff (X : DataFrame) (y : Series) :
  (exists td, training_data X y = Ok td) <->
  (forall i : nat, (i < length X)%nat ->
     exists c : Z, y !! i = Some c /\ -10 <= c <= 9).
Proof.
  split.
  - intros [td Htd] i Hi. by apply (training_data_ok_good X y td).
  - intros Hgood. unfold training_data, reshape, num_rows.
    destruct (reshape_loop_good X y (length X) 0
                (mkLoop [] (replicate (length X) None)))
      as (st' & Hrun & _).
    { lia. }
    { simpl. by rewrite length_replicate. }
    { intros i Hi. apply Hgood. lia. }
    rewrite Hrun. eauto.
Qed.

(** X3. Whenever the cell completes, the list is complete and loses no
    feature: it has one entry per row of [X], no entry is still [None],
    and flattening the feature column of entry [i] gives back row [i] of
    [X], value by value. *)
Theorem training_data_complete (X : DataFrame) (y : Series)
    (td : list (option example)) :
  training_data X y = Ok td ->
  length td = length X /\
  forall (i : nat) (row : list float),
    X !! i = Some row ->
    exists tx ty : ndarray,
      td !! i = Some (Some (tx, ty)) /\
      concat tx = row /\ has_shape tx (length row) 1 /\ has_shape ty 10 1.
Proof.
  intros Htd.
  assert (Hgood : forall i, (i < length X)%nat -> good_row y i).
  { by apply (training_data_ok_good X y td). }
  revert Htd. unfold training_data, reshape, num_rows.
  destruct (reshape_loop_good X y (length X) 0
              (mkLoop [] (replicate (length X) None)))
    as (st' & Hrun & Hlen & _ & Hin & _).
  { lia. }
  { simpl. by rewrite length_replicate. }
  { intros i Hi. apply Hgood. lia. }
  rewrite Hrun. intros Htd. injection Htd as <-. split; [done|].
  intros i row HX.
  assert (Hi : (i < length X)%nat) by (by eapply lookup_lt_Some).
  destruct (Hgood i Hi) as (c & Hc & _).
  eexists _, _. split; [apply (Hin i row c); [lia|done..]|].
  split; [apply concat_column|].
  split; [apply column_shape|apply single_entry_shape].
Qed.

Lemma training_data_complete_witness :
  exists tx ty : ndarray,
    [Some (column [0.5%float; 0.25%float], single_entry 10 3 3%float)]
      !! 0%nat = Some (Some (tx, ty)) /\
    concat tx = [0.5%float; 0.25%float].
Proof.
  destruct (training_data_complete [[0.5%float; 0.25%float]] [3]
              [Some (column [0.5%float; 0.25%float],
                     single_entry 10 3 3%float)] eq_refl) as [_ H].
  destruct (H 0%nat [0.5%float; 0.25%float] eq_refl)
    as (tx & ty & H1 & H2 & _).
  exists tx, ty. split; [exact H1|exact H2].
Defined.

(** X4. A label outside [-10 .. 9] that fits a signed 64-bit integer (as
    every label of the integer dtypes up to [int64] does) stops the cell
    with IndexError at the first row [j] that carries one: the entries
    before [j] are already stored, the entries from [j] on are still
    [None]. *)
Theorem training_data_index_error (X : DataFrame) (y : Series) (j : nat)
    (c : Z) :
  (j < length X)%nat ->
  (forall i : nat, (i < j)%nat ->
     exists c' : Z, y !! i = Some c' /\ -10 <= c' <= 9) ->
  y !! j = Some c -> - 2 ^ 63 <= c < 2 ^ 63 -> ~ (-10 <= c <= 9) ->
  training_data X y = Raise IndexError /\
  (reshape X y).2 = Raise IndexError /\
  length (slots (reshape X y).1) = length X /\
  (forall (i : nat) (row : list float) (c' : Z),
     (i < j)%nat -> X !! i = Some row -> y !! i = Some c' ->
     slots (reshape X y).1 !! i = Some (stored row c')) /\
  (forall i : nat, (j <= i < length X)%nat ->
     slots (reshape X y).1 !! i = Some None).
Proof.
  intros Hj Hgood Hy _ Hc. unfold training_data, reshape, num_rows.
  destruct (reshape_loop_bad X y j IndexError) with
    (n := length X) (k := 0%nat)
    (st := mkLoop [] (replicate (length X) None))
    as (st' & Hrun & Hlen & _ & Hin & Hrest).
  { right. exists c. done. }
  { lia. }
  { simpl. by rewrite length_replicate. }
  { lia. }
  { intros i Hi. apply Hgood. lia. }
  rewrite Hrun. simpl. split; [done|]. split; [done|]. split; [done|].
  split.
  - intros i row c' Hi. apply Hin. lia.
  - intros i Hi. rewrite Hrest by lia. simpl.
    apply lookup_replicate_2. lia.
Qed.

Lemma training_data_index_error_witness :
  training_data [[0.5%float]; [0.25%float]; [1%float]] [3; 10; 4]
    = Raise IndexError /\
  slots (reshape [[0.5%float]; [0.25%float]; [1%float]] [3; 10; 4]).1
    !! 2%nat = Some None.
Proof.
  destruct (training_data_index_error
              [[0.5%float]; [0.25%float]; [1%float]] [3; 10; 4] 1 10)
    as (H1 & _ & _ & _ & H2).
  - simpl. lia.
  - intros i Hi. assert (i = 0%nat) as -> by lia. exists 3. split; [done|lia].
  - reflexivity.
  - lia.
  - lia.
  - split; [exact H1|]. apply H2. simpl. lia.
Defined.

(** X5. A series that is shorter than the frame and holds only accepted
    labels, [-10 <= c <= 9], stops the cell with KeyError at row [len(y)]:
    the entries before it are already stored, the entries from it on are
    still [None]. *)
Theorem training_data_key_error (X : DataFrame) (y : Series) :
  (length y < length X)%nat ->
  Forall (fun c => -10 <= c <= 9) y ->
  training_data X y = Raise KeyError /\
  (reshape X y).2 = Raise KeyError /\
  length (slots (reshape X y).1) = length X /\
  (forall (i : nat) (row : list float) (c : Z),
     X !! i = Some row -> y !! i = Some c ->
     slots (reshape X y).1 !! i = Some (stored row c)) /\
  (forall i : nat, (length y <= i < length X)%nat ->
     slots (reshape X y).1 !! i = Some None).
Proof.
  intros Hlen Hlab. unfold training_data, reshape, num_rows.
  destruct (reshape_loop_bad X y (length y) KeyError) with
    (n := length X) (k := 0%nat)
    (st := mkLoop [] (replicate (length X) None))
    as (st' & Hrun & Hl & _ & Hin & Hrest).
  { left. split; [|done]. by apply lookup_ge_None_2. }
  { lia. }
  { simpl. by rewrite length_replicate. }
  { lia. }
  { intros i Hi. destruct (lookup_lt_is_Some_2 y i) as [c Hc]; [lia|].
    exists c. split; [done|]. eapply (Forall_lookup_1 _ y); eauto. }
  rewrite Hrun. simpl. split; [done|]. split; [done|]. split; [done|].
  split.
  - intros i row c HX Hy. apply (Hin i row c); [|done..].
    apply lookup_lt_Some in Hy. lia.
  - intros i Hi. rewrite Hrest by lia. simpl.
    apply lookup_replicate_2. lia.
Qed.

Lemma training_data_key_error_witness :
  training_data [[0.5%float]; [0.25%float]] [3] = Raise KeyError /\
  slots (reshape [[0.5%float]; [0.25%float]] [3]).1 !! 1%nat = Some None.
Proof.
  destruct (training_data_key_error [[0.5%float]; [0.25%float]] [3])
    as (H1 & _ & _ & _ & H2).
  - simpl. lia.
  - repeat constructor; lia.
  - split; [exact H1|]. apply H2. simpl. lia.
Defined.

(** X6. When every row is accepted, the cell prints exactly the row
    indices below [len(X)] that are multiples of 15000, in increasing
    order, and nothing else. *)
Theorem reshape_stdout (X : DataFrame) (y : Series) :
  (forall i : nat, (i < length X)%nat ->
     exists c : Z, y !! i = Some c /\ -10 <= c <= 9) ->
  stdout (reshape X y).1 =
    filter (fun i : nat => Z.of_nat i mod 15000 = 0) (seq 0 (length X)).
Proof.
  intros Hgood. unfold reshape, num_rows.
  destruct (reshape_loop_good X y (length X) 0
              (mkLoop [] (replicate (length X) None)))
    as (st' & Hrun & _ & Hout & _).
  { lia. }
  { simpl. by rewrite length_replicate. }
  { intros i Hi. apply Hgood. lia. }
  rewrite Hrun. simpl. rewrite Hout. simpl. apply concat_printed_at.
Qed.

Lemma reshape_stdout_witness :
  stdout (reshape [[0.5%float]; [0.25%float]] [3; 4]).1 =
    filter (fun i : nat => Z.of_nat i mod 15000 = 0) (seq 0 2).
Proof.
  apply (reshape_stdout [[0.5%float]; [0.25%float]] [3; 4]).
  intros i Hi. simpl in Hi.
  destruct i as [|[|i]]; [exists 3|exists 4|lia]; split; (done || lia).
Defined.

(** * Part III: properties of the other cells *)

(** ** Outcome labels *)

Lemma label_dict_lookup (c : Z) (name : string) :
  label_dict !! c = Some name <-> (c, name) ∈ label_items.
Proof.
  unfold label_dict. symmetry. apply elem_of_list_to_map.
  apply (bool_decide_unpack _). vm_compute. reflexivity.
Qed.

Lemma label_dict_has_name (c : Z) :
  0 <= c <= 9 -> exists name, label_dict !! c = Some name.
Proof.
  intros Hc.
  assert (Hn : exists n : nat, (n < 10)%nat /\ c = Z.of_nat n).
  { exists (Z.to_nat c). lia. }
  destruct Hn as (n & Hn & ->).
  do 10 (destruct n as [|n]; [eexists; vm_compute; reflexivity|]). lia.
Qed.

(** X7. [label_dict[c]] returns a name exactly for the ten class labels
    [0 <= c <= 9]; for every other key it raises KeyError. *)
Theorem label_dict_get_iff (c : Z) :
  ((exists name, dict_get label_dict c = Ok name) <-> 0 <= c <= 9) /\
  (dict_get label_dict c = Raise KeyError <-> ~ (0 <= c <= 9)).
Proof.
  pose proof (label_dict_has_name c) as Hin.
  assert (Hout : forall name, label_dict !! c = Some name -> 0 <= c <= 9).
  { intros name H. apply label_dict_lookup in H. unfold label_items in H.
    repeat (apply elem_of_cons in H as [H|H]; [injection H as -> _; lia|]).
    by apply elem_of_nil in H. }
  unfold dict_get. split; split.
  - intros [name H]. destruct (label_dict !! c) as [s|] eqn:E;
      [by apply (Hout s)|discriminate H].
  - intros Hc. destruct (Hin Hc) as [name ->]. eauto.
  - intros H Hc. destruct (Hin Hc) as [name E]. rewrite E in H.
    discriminate H.
  - intros Hc. destruct (label_dict !! c) as [s|] eqn:E; [|done].
    exfalso. apply Hc. by apply (Hout s).
Qed.

(** X8. The comprehension that builds [class_names] raises no KeyError;
    the list has one name per class, in class order (position [x] holds
    [label_dict[x]]), and no name occurs twice. *)
Theorem class_names_in_order :
  exists names : list string,
    class_names = Ok names /\ length names = 10%nat /\ NoDup names /\
    forall x : Z, 0 <= x <= 9 -> names !! Z.to_nat x = label_dict !! x.
Proof.
  eexists. split; [vm_compute; reflexivity|]. split; [reflexivity|]. split.
  - apply (bool_decide_unpack _). vm_compute. reflexivity.
  - intros x Hx.
    assert (Hn : exists n : nat, (n < 10)%nat /\ x = Z.of_nat n).
    { exists (Z.to_nat x). lia. }
    destruct Hn as (n & Hn & ->).
    do 10 (destruct n as [|n]; [vm_compute; reflexivity|]). lia.
Qed.

(** ** Reshaping a row into an image *)

Lemma chunks_shift (c : nat) (v : list float) (r : nat) :
  (fun i => take c (drop (i * c) v)) <$> seq 1 r =
  (fun i => take c (drop (i * c) (drop c v))) <$> seq 0 r.
Proof.
  rewrite <- (fmap_S_seq 0 r), <- list_fmap_compose.
  apply list_fmap_ext. intros _ i _. simpl.
  rewrite drop_drop. do 2 f_equal; lia.
Qed.

Lemma concat_chunks (c : nat) :
  forall (r : nat) (v : list float),
    length v = (r * c)%nat ->
    concat ((fun i => take c (drop (i * c) v)) <$> seq 0 r) = v.
Proof.
  induction r as [|r IH]; intros v Hv.
  - simpl in *. by destruct v.
  - change (seq 0 (S r)) with (0%nat :: seq 1 r).
    rewrite fmap_cons. cbn [concat]. rewrite chunks_shift, IH.
    + simpl. apply take_drop.
    + rewrite length_drop. lia.
Qed.

Lemma np_reshape_ok (r c : nat) (v : list float) :
  length v = (r * c)%nat ->
  exists img : ndarray,
    np_reshape r c v = inr img /\ has_shape img r c /\ concat img = v /\
    forall i j : nat, (i < r)%nat -> (j < c)%nat ->
      exists row, img !! i = Some row /\ row !! j = v !! (i * c + j)%nat.
Proof.
  intros Hv. unfold np_reshape.
  rewrite (proj2 (Nat.eqb_eq _ _) Hv).
  eexists. split; [reflexivity|]. split; [|split].
  - split; [by rewrite length_fmap, length_seq|].
    apply Forall_fmap, Forall_forall. intros i Hi. simpl.
    apply elem_of_seq in Hi. rewrite length_take, length_drop. nia.
  - by apply concat_chunks.
  - intros i j Hi Hj. eexists. split.
    + rewrite list_lookup_fmap, lookup_seq_lt by done. reflexivity.
    + simpl. rewrite lookup_take_lt by done. by rewrite lookup_drop.
Qed.

Lemma np_reshape_concat (r c : nat) (v : list float) (img : ndarray) :
  np_reshape r c v = inr img -> concat img = v.
Proof.
  unfold np_reshape.
  destruct (Nat.eqb_spec (length v) (r * c)) as [E|E]; [|discriminate].
  intros H. injection H as <-. by apply concat_chunks.
Qed.

Lemma np_reshape_error (r c : nat) (v : list float) :
  length v <> (r * c)%nat -> np_reshape r c v = inl ValueError.
Proof.
  intros Hv. unfold np_reshape.
  by rewrite (proj2 (Nat.eqb_neq _ _) Hv).
Qed.

Lemma getitem_out_of_range {A : Type} (l : list A) (k : Z) :
  k < - len l \/ len l <= k -> getitem l k = Raise IndexError.
Proof.
  unfold len. intros Hk. unfold getitem, normalize_index.
  destruct (Z.leb_spec 0 k), (Z.ltb_spec k (Z.of_nat (length l))),
    (Z.leb_spec (- Z.of_nat (length l)) k), (Z.ltb_spec k 0); simpl;
    try reflexivity; exfalso; lia.
Qed.

Lemma getitem_elem {A : Type} (l : list A) (k : Z) (a : A) :
  getitem l k = Ok a -> a ∈ l.
Proof.
  unfold getitem. destruct (normalize_index k (length l)) as [e|i]; simpl;
    [discriminate|].
  destruct (l !! i) as [b|] eqn:E; [|discriminate].
  intros H. injection H as <-. eapply list_elem_of_lookup_2; eauto.
Qed.

(** ** The image viewer *)

(** X9. For an index that selects a row of 784 values and a label that has
    a name, [visualize_image] draws one image and then prints that name.
    The image is 28 by 28, its pixel in row [r] and column [c] is value
    [28 r + c] of the data row, and nothing of the row is lost. *)
Theorem visualize_image_ok (dataset_x : list (list float))
    (dataset_y : list Z) (img_index : Z) (y_labels : gmap Z string)
    (d : display) (row : list float) (c : Z) (name : string) :
  getitem dataset_x img_index = Ok row -> length row = 784%nat ->
  getitem dataset_y img_index = Ok c -> y_labels !! c = Some name ->
  exists img : ndarray,
    visualize_image dataset_x dataset_y img_index y_labels d =
      (mkDisplay (images d ++ [img]) (printed d ++ [name]), inr tt) /\
    has_shape img 28 28 /\ concat img = row /\
    forall i j : nat, (i < 28)%nat -> (j < 28)%nat ->
      exists line, img !! i = Some line /\
                   line !! j = row !! (i * 28 + j)%nat.
Proof.
  intros Hx Hrow Hy Hname.
  destruct (np_reshape_ok 28 28 row Hrow) as (img & Himg & Hshape & Hcat & Hpix).
  exists img. split; [|done].
  unfold visualize_image. unfold Ok in Hx, Hy. rewrite Hx, Himg, Hy.
  unfold dict_get. by rewrite Hname.
Qed.

Lemma visualize_image_ok_witness :
  exists img : ndarray,
    visualize_image [replicate 784 0.5%float] [7] 0 label_dict
      (mkDisplay [] []) =
      (mkDisplay [img] ["Sneaker"%string], inr tt) /\
    has_shape img 28 28.
Proof.
  destruct (visualize_image_ok [replicate 784 0.5%float] [7] 0 label_dict
              (mkDisplay [] []) (replicate 784 0.5%float) 7
              "Sneaker"%string)
    as (img & H1 & H2 & _).
  - reflexivity.
  - reflexivity.
  - reflexivity.
  - vm_compute. reflexivity.
  - exists img. split; [exact H1|exact H2].
Defined.

(** X10. Whatever [visualize_image] draws from the normalised training
    images has every intensity in the interval [0, 1]: for raw pixels in
    [0 .. 255], each entry of an image added to the display satisfies
    [0 <= f <= 1]. *)
Theorem visualize_image_normalized (X_train : list (list Z))
    (dataset_y : list Z) (img_index : Z) (y_labels : gmap Z string)
    (d : display) (img : ndarray) :
  (forall x v, x ∈ X_train -> v ∈ x -> 0 <= v <= 255) ->
  images (visualize_image (X_train_normalize X_train) dataset_y img_index
            y_labels d).1 = images d ++ [img] ->
  forall (line : list float) (f : float),
    line ∈ img -> f ∈ line -> in_unit_interval f = true.
Proof.
  intros Hpix Himg line f Hline Hf.
  assert (Hno : images d <> images d ++ [img]).
  { intros H. apply (f_equal length) in H. rewrite length_app in H.
    simpl in H. lia. }
  unfold visualize_image in Himg.
  destruct (getitem (X_train_normalize X_train) img_index) as [e|row] eqn:Hx;
    [by destruct (Hno Himg)|].
  destruct (np_reshape 28 28 row) as [e|img0] eqn:Hr;
    [by destruct (Hno Himg)|].
  assert (Himg0 : img0 = img).
  { destruct (getitem dataset_y img_index) as [e|c];
      [|destruct (dict_get y_labels c)]; simpl in Himg;
      apply app_inj_tail in Himg as [_ ?]; done. }
  subst img0.
  pose proof (np_reshape_concat 28 28 row img Hr) as Hcat.
  assert (Hfrow : f ∈ row).
  { rewrite <- Hcat. apply list_elem_of_In, in_concat.
    exists line. split; by apply list_elem_of_In. }
  apply getitem_elem in Hx. unfold X_train_normalize in Hx.
  apply list_elem_of_fmap in Hx as (x & -> & Hx).
  apply list_elem_of_fmap in Hfrow as (v & -> & Hv).
  apply normalize_pixel_bounds. by apply (Hpix x v).
Qed.

Lemma visualize_image_normalized_witness :
  in_unit_interval (normalize_pixel 128) = true.
Proof.
  assert (Hpix : forall x v, x ∈ [replicate 784 128] -> v ∈ x ->
                             0 <= v <= 255).
  { intros x v Hx Hv. apply list_elem_of_singleton in Hx. subst x.
    apply elem_of_replicate in Hv as [-> _]. lia. }
  apply (visualize_image_normalized [replicate 784 128] [7] 0 label_dict
           (mkDisplay [] [])
           ((fun i => take 28 (drop (i * 28)
                        (normalize_pixel <$> replicate 784 128)))
              <$> seq 0 28)
           Hpix eq_refl
           (take 28 (normalize_pixel <$> replicate 784 128))).
  - apply list_elem_of_here.
  - apply list_elem_of_here.
Defined.

(** X11. [visualize_image] raises before anything is drawn when the index
    is out of range (IndexError) or when the selected row does not hold
    784 values (ValueError): the display is unchanged. *)
Theorem visualize_image_nothing_drawn (dataset_x : list (list float))
    (dataset_y : list Z) (img_index : Z) (y_labels : gmap Z string)
    (d : display) :
  (img_index < - len dataset_x \/ len dataset_x <= img_index ->
   visualize_image dataset_x dataset_y img_index y_labels d =
     (d, inl (Raised IndexError))) /\
  (forall row, getitem dataset_x img_index = Ok row ->
   length row <> 784%nat ->
   visualize_image dataset_x dataset_y img_index y_labels d =
     (d, inl ValueError)).
Proof.
  unfold visualize_image. split.
  - intros Hk. rewrite (getitem_out_of_range dataset_x img_index Hk). done.
  - intros row Hx Hrow. unfold Ok in Hx. rewrite Hx.
    by rewrite (np_reshape_error 28 28 row Hrow).
Qed.

(** X12. A label without a name in [y_labels] makes [visualize_image]
    raise KeyError after the image has been drawn: the display holds the
    new image and no new printed line. The same holds, with IndexError,
    when the label array is too short for the index. *)
Theorem visualize_image_drawn_not_printed (dataset_x : list (list float))
    (dataset_y : list Z) (img_index : Z) (y_labels : gmap Z string)
    (d : display) (row : list float) :
  getitem dataset_x img_index = Ok row -> length row = 784%nat ->
  exists img : ndarray,
    has_shape img 28 28 /\ concat img = row /\
    (forall c, getitem dataset_y img_index = Ok c -> y_labels !! c = None ->
       visualize_image dataset_x dataset_y img_index y_labels d =
         (mkDisplay (images d ++ [img]) (printed d),
          inl (Raised KeyError))) /\
    (img_index < - len dataset_y \/ len dataset_y <= img_index ->
       visualize_image dataset_x dataset_y img_index y_labels d =
         (mkDisplay (images d ++ [img]) (printed d),
          inl (Raised IndexError))).
Proof.
  intros Hx Hrow.
  destruct (np_reshape_ok 28 28 row Hrow) as (img & Himg & Hshape & Hcat & _).
  exists img. split; [done|]. split; [done|].
  unfold visualize_image. unfold Ok in Hx. rewrite Hx, Himg. split.
  - intros c Hy Hname. unfold Ok in Hy. rewrite Hy.
    unfold dict_get. by rewrite Hname.
  - intros Hk. by rewrite (getitem_out_of_range dataset_y img_index Hk).
Qed.

Lemma visualize_image_drawn_not_printed_witness :
  exists img : ndarray,
    has_shape img 28 28 /\
    visualize_image [replicate 784 0.5%float] [12] 0 label_dict
      (mkDisplay [] []) =
      (mkDisplay [img] [], inl (Raised KeyError)).
Proof.
  destruct (visualize_image_drawn_not_printed [replicate 784 0.5%float]
              [12] 0 label_dict (mkDisplay [] [])
              (replicate 784 0.5%float) eq_refl eq_refl)
    as (img & H1 & _ & H2 & _).
  exists img. split; [exact H1|]. apply (H2 12); [reflexivity|].
  vm_compute. reflexivity.
Defined.

(** ** The loops over the forest sizes *)

Section ForestProperties.

Context {forest : Type}.
Variable fit_forest : Z -> forest.
Variable oob_score_ : forest -> float.

Lemma foldl_fromkeys_lookup (keys : list Z) (k : Z) :
  forall d : gmap Z (option forest),
    foldl (fun d k => <[k := None]> d) d keys !! k =
    if decide (k ∈ keys) then Some None else d !! k.
Proof.
  induction keys as [|a keys IH]; intros d; cbn [foldl].
  - rewrite decide_False; [done|]. apply not_elem_of_nil.
  - rewrite IH. destruct (decide (k ∈ keys)) as [Hin|Hnin].
    + rewrite decide_True; [done|]. by apply list_elem_of_further.
    + destruct (decide (k = a)) as [->|Hne].
      * rewrite decide_True by apply list_elem_of_here.
        by rewrite lookup_insert_eq.
      * rewrite decide_False.
        { by rewrite lookup_insert_ne. }
        intros Hin. apply elem_of_cons in Hin as [?|?]; done.
Qed.

Lemma fit_loop_ok (sizes : list Z) :
  Forall (fun num => 1 <= num) sizes ->
  forall st : fit_state,
    (fit_loop fit_forest sizes st).2 = inr tt /\
    fit_stdout (fit_loop fit_forest sizes st).1 = fit_stdout st ++ sizes /\
    forall k : Z,
      rf_dict (fit_loop fit_forest sizes st).1 !! k =
      if decide (k ∈ sizes) then Some (Some (fit_forest k))
      else rf_dict st !! k.
Proof.
  induction 1 as [|a sizes Ha Hsizes IH]; intros st; cbn [fit_loop].
  - cbn [fst snd]. split; [done|]. split; [by rewrite app_nil_r|].
    intros k. rewrite decide_False; [done|]. apply not_elem_of_nil.
  - replace (1 <=? a) with true by lia. cbv zeta.
    cbn [fit_stdout rf_dict].
    destruct (IH (mkFit (fit_stdout st ++ [a])
                        (<[a := Some (fit_forest a)]> (rf_dict st))))
      as (Hok & Hout & Hlook).
    split; [exact Hok|]. split.
    { rewrite Hout. simpl. by rewrite <- app_assoc. }
    intros k. rewrite Hlook. cbn [rf_dict].
    destruct (decide (k ∈ sizes)) as [Hin|Hnin].
    + rewrite decide_True; [done|]. by apply list_elem_of_further.
    + destruct (decide (k = a)) as [->|Hne].
      * rewrite decide_True by apply list_elem_of_here.
        by rewrite lookup_insert_eq.
      * rewrite decide_False.
        { by rewrite lookup_insert_ne. }
        intros Hin. apply elem_of_cons in Hin as [?|?]; done.
Qed.

(** The loop stops at the first size below 1: that size is printed, the
    ValueError is raised, and the dictionary holds forests for the sizes
    before it only. *)
Lemma fit_loop_value_error (before : list Z) (bad : Z) (rest : list Z) :
  Forall (fun num => 1 <= num) before -> bad < 1 ->
  forall st : fit_state,
    (fit_loop fit_forest (before ++ bad :: rest) st).2 = inl ValueError /\
    fit_stdout (fit_loop fit_forest (before ++ bad :: rest) st).1
      = fit_stdout st ++ before ++ [bad] /\
    forall k : Z,
      rf_dict (fit_loop fit_forest (before ++ bad :: rest) st).1 !! k =
      if decide (k ∈ before) then Some (Some (fit_forest k))
      else rf_dict st !! k.
Proof.
  intros Hbefore Hbad.
  induction Hbefore as [|a before Ha Hbefore IH]; intros st.
  - cbn [app fit_loop]. replace (1 <=? bad) with false by lia. cbv zeta.
    cbn [fst snd fit_stdout rf_dict]. split; [done|]. split; [done|].
    intros k. rewrite decide_False; [done|]. apply not_elem_of_nil.
  - cbn [app fit_loop]. replace (1 <=? a) with true by lia. cbv zeta.
    cbn [fit_stdout rf_dict].
    destruct (IH (mkFit (fit_stdout st ++ [a])
                        (<[a := Some (fit_forest a)]> (rf_dict st))))
      as (Hok & Hout & Hlook).
    split; [exact Hok|]. split.
    { rewrite Hout. simpl. by rewrite <- app_assoc. }
    intros k. rewrite Hlook. cbn [rf_dict].
    destruct (decide (k ∈ before)) as [Hin|Hnin].
    + rewrite decide_True; [done|]. by apply list_elem_of_further.
    + destruct (decide (k = a)) as [->|Hne].
      * rewrite decide_True by apply list_elem_of_here.
        by rewrite lookup_insert_eq.
      * rewrite decide_False.
        { by rewrite lookup_insert_ne. }
        intros Hin. apply elem_of_cons in Hin as [?|?]; done.
Qed.

(** X13. When every listed forest size is at least 1, the fitting cells
    raise nothing; afterwards the dictionary holds under each listed size
    the forest fitted with that number of trees (no value is left [None])
    and has no other key, and the sizes were printed in list order. *)
Theorem fit_cells_lookup (sizes : list Z) (k : Z) :
  Forall (fun num => 1 <= num) sizes ->
  (fit_cells fit_forest sizes).2 = inr tt /\
  (k ∈ sizes ->
     rf_dict (fit_cells fit_forest sizes).1 !! k
       = Some (Some (fit_forest k)) /\
     fitted (rf_dict (fit_cells fit_forest sizes).1) k
       = inr (fit_forest k)) /\
  (k ∉ sizes ->
     rf_dict (fit_cells fit_forest sizes).1 !! k = None /\
     fitted (rf_dict (fit_cells fit_forest sizes).1) k
       = inl (Raised KeyError)) /\
  fit_stdout (fit_cells fit_forest sizes).1 = sizes.
Proof.
  intros Hpos. unfold fit_cells, fitted, dict_get.
  destruct (fit_loop_ok sizes Hpos (mkFit [] (fromkeys sizes)))
    as (Hok & Hout & Hlook).
  split; [exact Hok|]. split; [|split; [|exact Hout]].
  - intros Hin. rewrite Hlook, decide_True by done. done.
  - intros Hnin. rewrite Hlook, decide_False by done. simpl.
    unfold fromkeys. rewrite foldl_fromkeys_lookup, decide_False by done.
    by rewrite lookup_empty.
Qed.

(** The loop over [k .. k+n-1] on a dictionary that holds a forest for
    every listed size. *)
Lemma oob_loop_fitted (sizes : list Z) (d : gmap Z (option forest)) :
  (forall k, k ∈ sizes -> d !! k = Some (Some (fit_forest k))) ->
  forall (n k : nat) (l : list (option float)),
    (k + n <= length sizes)%nat -> length l = length sizes ->
    exists l',
      oob_loop oob_score_ sizes d (seq k n) l = (l', inr tt) /\
      length l' = length sizes /\
      (forall i s, (k <= i < k + n)%nat -> sizes !! i = Some s ->
         l' !! i = Some (Some (1 - oob_score_ (fit_forest s))%float)) /\
      (forall i, ~ (k <= i < k + n)%nat -> l' !! i = l !! i).
Proof.
  intros Hd. induction n as [|n IH]; intros k l Hk Hl.
  - exists l. simpl. split; [done|]. split; [done|].
    split; [intros; lia|done].
  - destruct (lookup_lt_is_Some_2 sizes k) as [s Hs]; [lia|].
    simpl. unfold oob_body, fitted, dict_get. rewrite Hs.
    rewrite (Hd s) by (eapply list_elem_of_lookup_2; eauto).
    destruct (IH (S k)
                (<[k := Some (1 - oob_score_ (fit_forest s))%float]> l))
      as (l' & Hrun & Hlen & Hin & Hrest).
    { lia. }
    { by rewrite length_insert. }
    exists l'. split; [done|]. split; [done|]. split.
    + intros i s' Hi Hs'. destruct (decide (i = k)) as [->|Hne].
      * rewrite Hrest by lia. rewrite list_lookup_insert_eq by lia.
        congruence.
      * apply Hin; [lia|done].
    + intros i Hi. rewrite Hrest by lia.
      apply list_lookup_insert_ne. lia.
Qed.

(** X14. When every listed forest size is at least 1, the OOB cell run
    after the fitting cells raises nothing and leaves no [None]: entry [i]
    of [oob_error_list] is [1 - oob_score_] of the forest fitted with
    [sizes[i]] trees, and the [else] branch plots the points
    [(sizes[i], oob_error_list[i])]. *)
Theorem oob_cell_after_fit (sizes : list Z) :
  Forall (fun num => 1 <= num) sizes ->
  oob_cell oob_score_ sizes (rf_dict (fit_cells fit_forest sizes).1) =
    ((fun s => Some (1 - oob_score_ (fit_forest s))%float) <$> sizes,
     inr (zip sizes
            ((fun s => Some (1 - oob_score_ (fit_forest s))%float)
               <$> sizes))).
Proof.
  intros Hpos. unfold oob_cell.
  destruct (oob_loop_fitted sizes (rf_dict (fit_cells fit_forest sizes).1))
    with (n := length sizes) (k := 0%nat)
         (l := replicate (length sizes) (@None float))
    as (l' & Hrun & Hlen & Hin & _).
  { intros k Hk. unfold fit_cells.
    destruct (fit_loop_ok sizes Hpos (mkFit [] (fromkeys sizes)))
      as (_ & _ & Hlook).
    by rewrite Hlook, decide_True. }
  { lia. }
  { by rewrite length_replicate. }
  rewrite Hrun.
  assert (Hl' : l' = (fun s => Some (1 - oob_score_ (fit_forest s))%float)
                       <$> sizes).
  { apply list_eq. intros i. rewrite list_lookup_fmap.
    destruct (sizes !! i) as [s|] eqn:Hs; simpl.
    - apply Hin; [|done]. apply lookup_lt_Some in Hs. lia.
    - apply lookup_ge_None_2. apply lookup_ge_None_1 in Hs. lia. }
  by rewrite Hl'.
Qed.

(** X15. Run on the dictionary as [dict.fromkeys] leaves it, before any
    forest is fitted, the OOB cell raises AttributeError at the first size
    and plots nothing: every entry of [oob_error_list] is still [None]. *)
Theorem oob_cell_before_fit (sizes : list Z) :
  sizes <> [] ->
  oob_cell oob_score_ sizes (fromkeys sizes) =
    (replicate (length sizes) None, inl AttributeError).
Proof.
  intros Hne. destruct sizes as [|s sizes]; [done|].
  unfold oob_cell. simpl. unfold oob_body, fitted, dict_get. simpl.
  assert (H : @fromkeys forest (s :: sizes) !! s = Some None).
  { unfold fromkeys. rewrite foldl_fromkeys_lookup.
    rewrite decide_True by apply list_elem_of_here. done. }
  by rewrite H.
Qed.

End ForestProperties.

Lemma n_trees_positive : Forall (fun num => 1 <= num) n_trees.
Proof. repeat constructor; lia. Defined.

Lemma fit_cells_lookup_witness :
  (fit_cells (fun num : Z => num) n_trees).2 = inr tt /\
  rf_dict (fit_cells (fun num : Z => num) n_trees).1 !! 500
    = Some (Some 500) /\
  fit_stdout (fit_cells (fun num : Z => num) n_trees).1 = n_trees.
Proof.
  destruct (fit_cells_lookup (fun num : Z => num) n_trees 500
              n_trees_positive) as (H1 & H2 & _ & H3).
  split; [exact H1|]. split; [|exact H3].
  apply H2. unfold n_trees. do 3 apply list_elem_of_further.
  apply list_elem_of_here.
Defined.

Lemma oob_cell_after_fit_witness :
  (oob_cell (fun num : Z => Z_to_float num / 2500)%float n_trees
     (rf_dict (fit_cells (fun num : Z => num) n_trees).1)).2 =
  inr (zip n_trees
         ((fun s => Some (1 - Z_to_float s / 2500)%float) <$> n_trees)).
Proof.
  rewrite (oob_cell_after_fit (fun num : Z => num)
             (fun num : Z => Z_to_float num / 2500)%float n_trees
             n_trees_positive).
  reflexivity.
Defined.

(** The fitting cells on a list with a size below 1: the ValueError of
    [fit] leaves that size and the ones after it unfitted. *)
Example fit_cells_bad_size :
  (fit_cells (fun num : Z => num) [50; 0; 100]).2 = inl ValueError /\
  rf_dict (fit_cells (fun num : Z => num) [50; 0; 100]).1 !! 50
    = Some (Some 50) /\
  rf_dict (fit_cells (fun num : Z => num) [50; 0; 100]).1 !! 0
    = Some None /\
  rf_dict (fit_cells (fun num : Z => num) [50; 0; 100]).1 !! 100
    = Some None /\
  fit_stdout (fit_cells (fun num : Z => num) [50; 0; 100]).1 = [50; 0].
Proof. vm_compute. repeat split. Qed.

Lemma oob_cell_before_fit_witness :
  oob_cell (fun f : float => f) n_trees (fromkeys n_trees) =
    (replicate 7 None, inl AttributeError).
Proof.
  apply (oob_cell_before_fit (fun f : float => f) n_trees). discriminate.
Defined.

(** ** The predicted classes (script lines 561-572) *)

Section ArgmaxProperties.

Context {num : Type} {SC : Scalar num}.

Abbreviation vec := (list num).




End ArgmaxProperties.


(** ** [np.argmax] on float arrays *)

(** The order of the IEEE values behind the float comparisons. *)

Ltac sf_cases :=
  repeat match goal with
  | s : bool |- _ => destruct s
  end;
  simpl in *; try discriminate; try congruence.

Lemma SFcompare_refl (a : spec_float) :
  a <> S754_nan -> SFcompare a a = Some Eq.
Proof.
  destruct a as [sa|sa| |sa ma ea]; intros Ha; try done; simpl.
  - by destruct sa.
  - rewrite Z.compare_refl.
    change (Pos.compare_cont Eq ma ma) with (Pos.compare ma ma).
    rewrite Pos.compare_refl. by destruct sa.
Qed.

Lemma SFcompare_defined (a b : spec_float) :
  a <> S754_nan -> b <> S754_nan -> exists c, SFcompare a b = Some c.
Proof.
  destruct a as [sa|sa| |sa ma ea], b as [sb|sb| |sb mb eb]; intros Ha Hb;
    try done; simpl; eauto.
Qed.

Lemma SFcompare_Gt_Lt (a b : spec_float) :
  SFcompare a b = Some Gt -> SFcompare b a = Some Lt.
Proof.
  destruct a as [sa|sa| |sa ma ea], b as [sb|sb| |sb mb eb]; simpl;
    try discriminate; sf_cases; intros H; f_equal;
    change (Pos.compare_cont Eq mb ma) with (Pos.compare mb ma);
    change (Pos.compare_cont Eq ma mb) with (Pos.compare ma mb) in H;
    rewrite (Z.compare_antisym ea eb), (Pos.compare_antisym ma mb);
    destruct (ea ?= eb), (ma ?= mb)%positive; simpl in *; congruence.
Qed.

Lemma SFcompare_le_lt (a b c : spec_float) (r : comparison) :
  SFcompare a b = Some r -> r <> Gt -> SFcompare b c = Some Lt ->
  SFcompare a c = Some Lt.
Proof.
  destruct a as [sa|sa| |sa ma ea], b as [sb|sb| |sb mb eb],
    c as [sc|sc| |sc mc ec]; simpl; try discriminate; sf_cases;
    intros Hab Hr Hbc; try congruence; f_equal;
    injection Hab as Hab; injection Hbc as Hbc;
    change (Pos.compare_cont Eq ?x ?y) with (Pos.compare x y) in *;
    destruct (Z.compare_spec ea eb), (Z.compare_spec eb ec),
      (Z.compare_spec ea ec); subst; try lia; try congruence;
    destruct (Pos.compare_spec ma mb), (Pos.compare_spec mb mc),
      (Pos.compare_spec ma mc); subst; simpl in *; try lia; congruence.
Qed.

Lemma float_not_nan (a : float) :
  PrimFloat.is_nan a = false -> Prim2SF a <> S754_nan.
Proof.
  unfold PrimFloat.is_nan. intros H Hn. apply negb_false_iff in H.
  rewrite FloatAxioms.eqb_spec, Hn in H. discriminate H.
Qed.

Lemma float_nan (a : float) :
  PrimFloat.is_nan a = true -> Prim2SF a = S754_nan.
Proof.
  unfold PrimFloat.is_nan. intros H. apply negb_true_iff in H.
  rewrite FloatAxioms.eqb_spec in H. unfold SFeqb in H.
  destruct (Prim2SF a) as [sa|sa| |sa ma ea]; [| |reflexivity|];
    rewrite SFcompare_refl in H by done; discriminate H.
Qed.

Lemma float_leb_refl (a : float) :
  PrimFloat.is_nan a = false -> PrimFloat.leb a a = true.
Proof.
  intros Ha. rewrite FloatAxioms.leb_spec. unfold SFleb.
  by rewrite SFcompare_refl by by apply float_not_nan.
Qed.

Lemma float_leb_false_ltb (a b : float) :
  PrimFloat.is_nan a = false -> PrimFloat.is_nan b = false ->
  PrimFloat.leb a b = false -> PrimFloat.ltb b a = true.
Proof.
  intros Ha Hb. rewrite FloatAxioms.leb_spec, FloatAxioms.ltb_spec.
  unfold SFleb, SFltb.
  destruct (SFcompare_defined (Prim2SF a) (Prim2SF b)) as [c Hc];
    [by apply float_not_nan..|].
  rewrite Hc. destruct c; try discriminate. intros _.
  by rewrite (SFcompare_Gt_Lt _ _ Hc).
Qed.

Lemma float_leb_ltb_trans (e m a : float) :
  PrimFloat.leb e m = true -> PrimFloat.ltb m a = true ->
  PrimFloat.ltb e a = true.
Proof.
  rewrite FloatAxioms.leb_spec, !FloatAxioms.ltb_spec. unfold SFleb, SFltb.
  destruct (SFcompare (Prim2SF e) (Prim2SF m)) as [r|] eqn:Hem;
    [|discriminate].
  destruct (SFcompare (Prim2SF m) (Prim2SF a)) as [[]|] eqn:Hma;
    try discriminate.
  intros Hr _.
  rewrite (SFcompare_le_lt _ _ _ r Hem); [done| |done].
  intros ->. discriminate Hr.
Qed.

Lemma float_ltb_leb (e a : float) :
  PrimFloat.ltb e a = true -> PrimFloat.leb e a = true.
Proof.
  rewrite FloatAxioms.leb_spec, FloatAxioms.ltb_spec. unfold SFleb, SFltb.
  by destruct (SFcompare (Prim2SF e) (Prim2SF a)) as [[]|].
Qed.

Lemma float_nan_leb (a m : float) :
  PrimFloat.is_nan a = true -> PrimFloat.leb a m = false.
Proof.
  intros Ha. rewrite FloatAxioms.leb_spec, (float_nan a Ha). done.
Qed.

(** The scan from position [i] on an array without NaN, given that [mp] at
    position [best] is the first maximum of the part before [i]. *)
Lemma np_argmax_from_first_maximum (whole : list float) :
  Forall (fun a => PrimFloat.is_nan a = false) whole ->
  forall (v : list float) (i best : nat) (mp : float),
    drop i whole = v -> (best < i)%nat -> whole !! best = Some mp ->
    (forall j a, (j < i)%nat -> whole !! j = Some a ->
       PrimFloat.leb a mp = true) ->
    (forall j a, (j < best)%nat -> whole !! j = Some a ->
       PrimFloat.ltb a mp = true) ->
    exists m,
      whole !! np_argmax_from v i best mp = Some m /\
      (forall j a, whole !! j = Some a -> PrimFloat.leb a m = true) /\
      (forall j a, (j < np_argmax_from v i best mp)%nat ->
         whole !! j = Some a -> PrimFloat.ltb a m = true).
Proof.
  intros Hnan.
  induction v as [|a v IH]; intros i best mp Hdrop Hbest Hmp Hmax Hfirst.
  - simpl. exists mp. split; [done|]. split; [|done].
    intros j e Hj. apply (Hmax j); [|done].
    apply lookup_lt_Some in Hj.
    apply (f_equal length) in Hdrop. rewrite length_drop in Hdrop.
    simpl in Hdrop. lia.
  - assert (Hi : whole !! i = Some a).
    { rewrite <- (Nat.add_0_r i), <- lookup_drop, Hdrop. done. }
    assert (Hdrop' : drop (S i) whole = v).
    { replace (S i) with (i + 1)%nat by lia.
      rewrite <- drop_drop, Hdrop. done. }
    pose proof (Forall_lookup_1 _ _ _ _ Hnan Hi) as Ha. simpl in Ha.
    pose proof (Forall_lookup_1 _ _ _ _ Hnan Hmp) as Hm. simpl in Hm.
    cbn [np_argmax_from].
    destruct (PrimFloat.leb a mp) eqn:Hle; cbn [negb].
    + apply IH; [done|lia|done| |done].
      intros j e Hj He. destruct (decide (j = i)) as [->|Hne].
      * assert (e = a) as -> by congruence. done.
      * apply (Hmax j); [lia|done].
    + rewrite Ha.
      pose proof (float_leb_false_ltb a mp Ha Hm Hle) as Hlt.
      apply IH; [done|lia|done| |].
      * intros j e Hj He. destruct (decide (j = i)) as [->|Hne].
        { assert (e = a) as -> by congruence. by apply float_leb_refl. }
        apply float_ltb_leb, (float_leb_ltb_trans e mp a); [|done].
        apply (Hmax j); [lia|done].
      * intros j e Hj He.
        apply (float_leb_ltb_trans e mp a); [|done]. by apply (Hmax j).
Qed.

(** The scan stops at the first NaN. *)
Lemma np_argmax_from_nan (v : list float) :
  forall (i best : nat) (mp : float) (k : nat) (a : float),
    v !! k = Some a -> PrimFloat.is_nan a = true ->
    (forall j b, (j < k)%nat -> v !! j = Some b ->
       PrimFloat.is_nan b = false) ->
    np_argmax_from v i best mp = (i + k)%nat.
Proof.
  induction v as [|b v IH]; intros i best mp k a Hk Ha Hbefore; [done|].
  cbn [np_argmax_from]. destruct k as [|k].
  - injection Hk as ->. rewrite (float_nan_leb a mp Ha), Ha. simpl. lia.
  - assert (Hb : PrimFloat.is_nan b = false).
    { apply (Hbefore 0%nat); [lia|done]. }
    assert (Hrest : forall j c, (j < k)%nat -> v !! j = Some c ->
                      PrimFloat.is_nan c = false).
    { intros j c Hj Hc. apply (Hbefore (S j)); [lia|done]. }
    rewrite Hb.
    destruct (negb (PrimFloat.leb b mp));
      rewrite (IH _ _ _ k a Hk Ha Hrest); lia.
Qed.

(** X17. [np.argmax] on a flat float array raises ValueError exactly on
    the empty array. On an array without NaN it returns the first position
    of a maximum: every entry is below or equal to the selected one and
    every entry before it is strictly below. On an array with a NaN it
    returns the position of the first NaN. *)
Theorem np_argmax_first_maximum (v : list float) :
  (np_argmax v = inl ValueError <-> v = []) /\
  (Forall (fun a => PrimFloat.is_nan a = false) v -> v <> [] ->
   exists (p : nat) (m : float),
     np_argmax v = inr p /\ v !! p = Some m /\
     (forall j a, v !! j = Some a -> PrimFloat.leb a m = true) /\
     (forall j a, (j < p)%nat -> v !! j = Some a ->
        PrimFloat.ltb a m = true)) /\
  (forall (k : nat) (a : float),
     v !! k = Some a -> PrimFloat.is_nan a = true ->
     (forall j b, (j < k)%nat -> v !! j = Some b ->
        PrimFloat.is_nan b = false) ->
     np_argmax v = inr k).
Proof.
  split; [|split].
  - destruct v as [|a v]; simpl; [done|].
    destruct (PrimFloat.is_nan a); split; discriminate.
  - intros Hnan Hv. destruct v as [|a v]; [done|].
    assert (Ha : PrimFloat.is_nan a = false).
    { by apply Forall_cons in Hnan as [? _]. }
    destruct (np_argmax_from_first_maximum (a :: v) Hnan v 1 0 a)
      as (m & H1 & H2 & H3).
    + done.
    + lia.
    + done.
    + intros j e Hj He. assert (j = 0%nat) as -> by lia.
      injection He as <-. by apply float_leb_refl.
    + intros j e Hj. lia.
    + exists (np_argmax_from v 1 0 a), m. simpl. rewrite Ha. done.
  - intros k a Hk Ha Hbefore. destruct v as [|b v]; [done|].
    simpl. destruct k as [|k].
    + injection Hk as ->. by rewrite Ha.
    + assert (Hb : PrimFloat.is_nan b = false).
      { apply (Hbefore 0%nat); [lia|done]. }
      rewrite Hb. f_equal.
      rewrite (np_argmax_from_nan v 1 0 b k a Hk Ha); [done|].
      intros j c Hj Hc. apply (Hbefore (S j)); [lia|done].
Qed.

Example np_argmax_examples :
  np_argmax [0.25; 0.5; 0.5]%float = inr 1%nat /\
  np_argmax [0.25; nan; 0.5]%float = inr 1%nat /\
  np_argmax [0; -0; 0]%float = inr 0%nat /\
  np_argmax [neg_infinity; -1; infinity; 3]%float = inr 2%nat /\
  np_argmax [] = inl ValueError.
Proof. vm_compute. repeat split. Qed.

(** ** The fitting cells on a size that [fit] rejects *)

(** X18. When a listed forest size is below 1, the fitting loop stops at
    the first such size with the ValueError of [fit]: that size and the
    sizes before it were printed, the sizes before it have their fitted
    forest, and every other listed size is still mapped to [None], so using
    it raises AttributeError. *)
Theorem fit_cells_value_error {forest : Type} (fit_forest : Z -> forest)
    (before : list Z) (bad : Z) (rest : list Z) (k : Z) :
  Forall (fun num => 1 <= num) before -> bad < 1 ->
  (fit_cells fit_forest (before ++ bad :: rest)).2 = inl ValueError /\
  fit_stdout (fit_cells fit_forest (before ++ bad :: rest)).1
    = before ++ [bad] /\
  (k ∈ before ->
     fitted (rf_dict (fit_cells fit_forest (before ++ bad :: rest)).1) k
       = inr (fit_forest k)) /\
  (k ∉ before -> k ∈ before ++ bad :: rest ->
     fitted (rf_dict (fit_cells fit_forest (before ++ bad :: rest)).1) k
       = inl AttributeError).
Proof.
  intros Hbefore Hbad. unfold fit_cells, fitted, dict_get.
  destruct (fit_loop_value_error fit_forest before bad rest Hbefore Hbad
              (mkFit [] (fromkeys (before ++ bad :: rest))))
    as (Herr & Hout & Hlook).
  split; [exact Herr|]. split; [exact Hout|]. split.
  - intros Hin. rewrite Hlook, decide_True by done. done.
  - intros Hnin Hin. rewrite Hlook, decide_False by done. simpl.
    unfold fromkeys. rewrite foldl_fromkeys_lookup, decide_True by done.
    done.
Qed.

Lemma fit_cells_value_error_witness :
  (fit_cells (fun num : Z => num) [50; 0; 100]).2 = inl ValueError /\
  fitted (rf_dict (fit_cells (fun num : Z => num) [50; 0; 100]).1) 100
    = inl AttributeError.
Proof.
  destruct (fit_cells_value_error (fun num : Z => num) [50] 0 [100] 100)
    as (H1 & _ & _ & H2).
  - repeat constructor; lia.
  - lia.
  - split; [exact H1|]. apply H2.
    + intros Hin. apply list_elem_of_singleton in Hin. discriminate Hin.
    + do 2 apply list_elem_of_further. apply list_elem_of_here.
Defined.
